(** * MD5-Cracking-Project: the coordinator (server.py) and the worker
      (client.py), embedded and checked against the specification.

    Definitions:
    - [Hashlib] and [Fmt]: the library services the worker calls,
      [hashlib.md5(..).hexdigest()], [str.upper] and the format
      specification [010d];
    - [Protocol]: the decoded messages of both directions;
    - [Interval]: closed integer ranges, for blocks and sub-ranges;
    - [Wire]: [send_message] ([json.dumps] of the dicts that are sent,
      plus a newline) and the receive loops that cut the text into lines;
    - [Client]: [worker] and the sub-range split of [process_work];
    - [Server]: the module globals of server.py as one record, the
      functions that run under [lock], and [handle_client] as a step
      function over the lines of all connections, each line handled in
      one piece;
    - [Threads]: the same handlers one lock block at a time, with the
      sends that happen outside [lock] as steps of their own, for what
      depends on the order in which messages leave.

    Theorems follow the definitions, one section per function. *)

From Stdlib Require Import ZArith Lia List Ascii String Bool.
From stdpp Require Import gmap list fin_maps.
Import ListNotations.
Local Open Scope Z_scope.

(* ===================================================================== *)
(** ** hashlib.md5: RFC 1321 on 32-bit words held in [Z]                  *)
(* ===================================================================== *)

Module Hashlib.

Definition w32 (x : Z) : Z := x mod 2 ^ 32.
Definition add32 (x y : Z) : Z := w32 (x + y).
Definition not32 (x : Z) : Z := Z.lxor x 0xffffffff.
Definition rotl32 (x c : Z) : Z :=
  w32 (Z.lor (Z.shiftl x c) (Z.shiftr x (32 - c))).

(** K[i] = floor(2^32 * |sin (i + 1)|) *)
Definition K : list Z :=
  [ 0xd76aa478; 0xe8c7b756; 0x242070db; 0xc1bdceee;
    0xf57c0faf; 0x4787c62a; 0xa8304613; 0xfd469501;
    0x698098d8; 0x8b44f7af; 0xffff5bb1; 0x895cd7be;
    0x6b901122; 0xfd987193; 0xa679438e; 0x49b40821;
    0xf61e2562; 0xc040b340; 0x265e5a51; 0xe9b6c7aa;
    0xd62f105d; 0x02441453; 0xd8a1e681; 0xe7d3fbc8;
    0x21e1cde6; 0xc33707d6; 0xf4d50d87; 0x455a14ed;
    0xa9e3e905; 0xfcefa3f8; 0x676f02d9; 0x8d2a4c8a;
    0xfffa3942; 0x8771f681; 0x6d9d6122; 0xfde5380c;
    0xa4beea44; 0x4bdecfa9; 0xf6bb4b60; 0xbebfbc70;
    0x289b7ec6; 0xeaa127fa; 0xd4ef3085; 0x04881d05;
    0xd9d4d039; 0xe6db99e5; 0x1fa27cf8; 0xc4ac5665;
    0xf4292244; 0x432aff97; 0xab9423a7; 0xfc93a039;
    0x655b59c3; 0x8f0ccc92; 0xffeff47d; 0x85845dd1;
    0x6fa87e4f; 0xfe2ce6e0; 0xa3014314; 0x4e0811a1;
    0xf7537e82; 0xbd3af235; 0x2ad7d2bb; 0xeb86d391 ].

(** per-round left rotations *)
Definition shifts : list Z :=
  [ 7; 12; 17; 22; 7; 12; 17; 22; 7; 12; 17; 22; 7; 12; 17; 22;
    5; 9; 14; 20; 5; 9; 14; 20; 5; 9; 14; 20; 5; 9; 14; 20;
    4; 11; 16; 23; 4; 11; 16; 23; 4; 11; 16; 23; 4; 11; 16; 23;
    6; 10; 15; 21; 6; 10; 15; 21; 6; 10; 15; 21; 6; 10; 15; 21 ].

Record regs := Regs { rA : Z; rB : Z; rC : Z; rD : Z }.

Definition init_regs : regs :=
  Regs 0x67452301 0xefcdab89 0x98badcfe 0x10325476.

(** the auxiliary function of round [i] and the index of the message
    word it mixes in *)
Definition mix (i : Z) (r : regs) : Z * Z :=
  let '(Regs _ b c d) := r in
  if i <? 16 then (Z.lor (Z.land b c) (Z.land (not32 b) d), i)
  else if i <? 32 then
    (Z.lor (Z.land d b) (Z.land (not32 d) c), (5 * i + 1) mod 16)
  else if i <? 48 then (Z.lxor (Z.lxor b c) d, (3 * i + 5) mod 16)
  else (Z.lxor c (Z.lor b (not32 d)), (7 * i) mod 16).

Definition nthZ (l : list Z) (i : Z) : Z := nth (Z.to_nat i) l 0.

Definition round (m : list Z) (r : regs) (i : Z) : regs :=
  let '(f, g) := mix i r in
  let f' := add32 (add32 (add32 f (rA r)) (nthZ K i)) (nthZ m g) in
  Regs (rD r) (add32 (rB r) (rotl32 f' (nthZ shifts i))) (rB r) (rC r).

Definition indices (n : nat) : list Z := map Z.of_nat (seq 0 n).

(** one 512-bit block, given as its sixteen little-endian words *)
Definition compress (h : regs) (m : list Z) : regs :=
  let r := fold_left (round m) (indices 64) h in
  Regs (add32 (rA h) (rA r)) (add32 (rB h) (rB r))
       (add32 (rC h) (rC r)) (add32 (rD h) (rD r)).

(** [n] as [k] bytes, least significant first *)
Fixpoint le_bytes (k : nat) (n : Z) : list Z :=
  match k with
  | O => []
  | S k' => n mod 256 :: le_bytes k' (n / 256)
  end.

Fixpoint le_word (bs : list Z) : Z :=
  match bs with
  | [] => 0
  | b :: bs' => b + 256 * le_word bs'
  end.

Definition pad (msg : list Z) : list Z :=
  let len := Z.of_nat (List.length msg) in
  msg ++ [0x80] ++ repeat 0 (Z.to_nat ((55 - len) mod 64))
      ++ le_bytes 8 (8 * len).

(** cut a list into [n] pieces of [k] elements *)
Fixpoint pieces {A} (k n : nat) (l : list A) : list (list A) :=
  match n with
  | O => []
  | S n' => firstn k l :: pieces k n' (skipn k l)
  end.

Definition words_of (block : list Z) : list Z :=
  map le_word (pieces 4 16 block).

Definition md5 (msg : list Z) : regs :=
  let p := pad msg in
  fold_left compress
    (map words_of (pieces 64 (List.length p / 64)%nat p)) init_regs.

Definition digest (msg : list Z) : list Z :=
  let r := md5 msg in
  le_bytes 4 (rA r) ++ le_bytes 4 (rB r)
    ++ le_bytes 4 (rC r) ++ le_bytes 4 (rD r).

Definition hex_digit (d : Z) : ascii :=
  ascii_of_N (Z.to_N (if d <? 10 then 48 + d else 87 + d)).

Fixpoint hex_of (bs : list Z) : string :=
  match bs with
  | [] => EmptyString
  | b :: bs' => String (hex_digit (b / 16)) (String (hex_digit (b mod 16)) (hex_of bs'))
  end.

(** [s.encode()]: the UTF-8 bytes of [s]; the strings hashed here are
    ASCII, one byte per character *)
Definition encode (s : string) : list Z :=
  map (fun a => Z.of_N (N_of_ascii a)) (list_ascii_of_string s).

(** [hashlib.md5(data).hexdigest()] *)
Definition md5_hexdigest (data : list Z) : string := hex_of (digest data).

(** [str.upper] on ASCII *)
Definition upper_char (a : ascii) : ascii :=
  let n := N_of_ascii a in
  if ((97 <=? n) && (n <=? 122))%N then ascii_of_N (n - 32) else a.

Fixpoint upper (s : string) : string :=
  match s with
  | EmptyString => EmptyString
  | String a s' => String (upper_char a) (upper s')
  end.

End Hashlib.

(* ===================================================================== *)
(** ** The format specification [010d]                                    *)
(* ===================================================================== *)

Module Fmt.

Definition digit_char (d : Z) : ascii := ascii_of_N (Z.to_N (48 + d)).
Definition digit_of_char (a : ascii) : Z := Z.of_N (N_of_ascii a) - 48.

Definition is_digit (a : ascii) : bool :=
  let n := N_of_ascii a in ((48 <=? n) && (n <=? 57))%N.

(** the decimal digits of [n >= 0] pushed in front of [acc]; a number
    has no more decimal digits than bits, which bounds the recursion *)
Fixpoint digits_onto (fuel : nat) (n : Z) (acc : string) : string :=
  match fuel with
  | O => acc
  | S fuel' =>
      let acc' := String (digit_char (n mod 10)) acc in
      if n / 10 =? 0 then acc' else digits_onto fuel' (n / 10) acc'
  end.

Definition bits (n : Z) : nat := S (Z.to_nat (Z.log2 n)).

(** [str(n)] for [n >= 0] *)
Definition digits (n : Z) : string := digits_onto (bits n) n EmptyString.

Fixpoint zeros (k : nat) (s : string) : string :=
  match k with
  | O => s
  | S k' => String "0"%char (zeros k' s)
  end.

(** left padding with zeros up to [width] characters; longer strings
    are left alone *)
Definition zfill (width : nat) (s : string) : string :=
  zeros (width - String.length s) s.

(** [f"{number:010d}"]: minimum width 10, zeros between the sign and
    the digits *)
Definition format_010d (number : Z) : string :=
  if number <? 0 then String "-"%char (zfill 9 (digits (- number)))
  else zfill 10 (digits number).

(** the number a string of decimal digits denotes *)
Fixpoint decimal_value (s : string) : Z :=
  match s with
  | EmptyString => 0
  | String a s' =>
      digit_of_char a * 10 ^ Z.of_nat (String.length s') + decimal_value s'
  end.

Fixpoint all_digits (s : string) : bool :=
  match s with
  | EmptyString => true
  | String a s' => is_digit a && all_digits s'
  end.

End Fmt.

(* ===================================================================== *)
(** ** The messages on the wire                                           *)
(* ===================================================================== *)

Module Protocol.

(** the JSON scalars a field can hold once decoded; the coordinator
    stores the [number] field without looking at it *)
Inductive pyvalue :=
| PyNone
| PyBool (b : bool)
| PyInt (z : Z)
| PyStr (s : string).

(** one line received by the coordinator, after [json.loads] and the
    lookup of [message['type']].  An optional field is [None] when the
    key is absent.  The [cores] field is an integer, as [process_work]
    sends it. *)
Inductive message :=
| BadJson                              (* JSONDecodeError: the line is skipped *)
| NoType                               (* message['type'] raises *)
| Register (cores : option Z)
| RequestWork
| FoundMsg (number : option pyvalue)
| OtherType.                           (* no branch of handle_client matches *)

(** what the coordinator sends *)
Inductive reply :=
| Stop
| NoWork
| WorkMsg (start end_ : Z) (target_hash : string).

End Protocol.

(* ===================================================================== *)
(** ** Closed integer ranges                                              *)
(* ===================================================================== *)

Module Interval.

(** [n] lies in the closed range [r] *)
Definition inside (n : Z) (r : Z * Z) : bool :=
  (fst r <=? n) && (n <=? snd r).

(** how many ranges of [rs] contain [n] *)
Definition cover (n : Z) (rs : list (Z * Z)) : nat :=
  List.length (List.filter (inside n) rs).

(** [rs] tiles [lo, hi - 1] from left to right: every range starts
    where the one before stopped; a range may be empty ([e = s - 1]) *)
Inductive tiles : Z -> list (Z * Z) -> Z -> Prop :=
| tiles_nil lo : tiles lo [] lo
| tiles_cons lo e rs hi :
    lo <= e + 1 -> tiles (e + 1) rs hi -> tiles lo ((lo, e) :: rs) hi.

(** every range lies wholly before every later one *)
Definition pairwise_disjoint (rs : list (Z * Z)) : Prop :=
  forall i j ri rj,
    (i < j)%nat -> rs !! i = Some ri -> rs !! j = Some rj ->
    snd ri < fst rj.

End Interval.

(* ===================================================================== *)
(** ** client.py                                                          *)
(* ===================================================================== *)

Module Client.

(** [range(lo, hi)] *)
Definition py_range (lo hi : Z) : list Z :=
  map (fun i => lo + Z.of_nat i) (seq 0 (Z.to_nat (hi - lo))).

(** [hashlib.md5(num_str.encode()).hexdigest().upper()] *)
Definition hash_result (num_str : string) : string :=
  Hashlib.upper (Hashlib.md5_hexdigest (Hashlib.encode num_str)).

(** the body of the [for] loop of [worker], over the numbers still to
    visit; the result is what the task puts on [result_queue] *)
Fixpoint scan (numbers : list Z) (target_hash : string) : option string :=
  match numbers with
  | [] => None
  | number :: rest =>
      let num_str := Fmt.format_010d number in
      if String.eqb (hash_result num_str) target_hash
      then Some num_str
      else scan rest target_hash
  end.

(** candidate [number] hashes to the target *)
Definition hits (target_hash : string) (number : Z) : Prop :=
  hash_result (Fmt.format_010d number) = target_hash.

Definition worker (start end_ : Z) (target_hash : string) : option string :=
  scan (py_range start (end_ + 1)) target_hash.

(** the bounds handed to process [i] in [process_work] *)
Definition process_bounds (start end_ cores per_process i : Z) : Z * Z :=
  (start + i * per_process,
   if i <? cores - 1 then start + (i + 1) * per_process - 1 else end_).

(** the sub-ranges of [process_work] in the order the processes are
    started; [None] is the ZeroDivisionError of [total // cores] *)
Definition sub_ranges (start end_ cores : Z) : option (list (Z * Z)) :=
  let total := end_ - start + 1 in
  if cores =? 0 then None
  else
    let per_process := total / cores in
    Some (map (process_bounds start end_ cores per_process) (py_range 0 cores)).

(** what each process puts on the queue when it is left to run to the end
    of its sub-range *)
Definition queue_puts (start end_ cores : Z) (target_hash : string)
  : option (list (option string)) :=
  match sub_ranges start end_ cores with
  | None => None
  | Some rs => Some (map (fun r => worker (fst r) (snd r) target_hash) rs)
  end.

(** the end of the [work] branch of [process_work]: a truthy
    [found_number] is reported, anything else is not *)
Definition found_message (found_number : option string)
  : option Protocol.message :=
  match found_number with
  | Some (String a s) => Some (Protocol.FoundMsg (Some (Protocol.PyStr (String a s))))
  | Some EmptyString => None
  | None => None
  end.

(** one of [0-9A-F] *)
Definition is_upper_hex (a : ascii) : bool :=
  let n := N_of_ascii a in
  (((48 <=? n) && (n <=? 57)) || ((65 <=? n) && (n <=? 70)))%N.

Fixpoint all_upper_hex (s : string) : bool :=
  match s with
  | EmptyString => true
  | String a s' => is_upper_hex a && all_upper_hex s'
  end.

End Client.

(* ===================================================================== *)
(** ** server.py                                                          *)
(* ===================================================================== *)

Module Server.
Import Protocol.

Definition TARGET_HASH : string := "EC9C0F7EDCC18A98B1F31853B1813301".
Definition START_NUMBER : Z := 0.
Definition END_NUMBER : Z := 1 * 10 ^ 10 - 1.
Definition BLOCK_SIZE_PER_CORE : Z := 200000.

(** a socket object, compared by identity *)
Definition conn := nat.

(** [{'start': start, 'end': end}] *)
Record work := Work { start : Z; end_ : Z }.

(** [{'conn': conn, 'cores': client_cores}] *)
Record client := Client { client_conn : conn; client_cores : Z }.

(** The module globals, and [sent]: the messages given to
    [send_message], oldest first.  [send_message] swallows every
    exception of the socket, so a send never changes the control flow. *)
Record globals := Globals {
  current_number : Z;
  found : bool;
  found_number : pyvalue;
  clients : list client;
  assigned_work : gmap conn work;
  sent : list (conn * reply)
}.

Definition initial : globals :=
  Globals START_NUMBER false PyNone [] ∅ [].

Definition send_message (c : conn) (m : reply) (g : globals) : globals :=
  Globals (current_number g) (found g) (found_number g) (clients g)
          (assigned_work g) (sent g ++ [(c, m)]).

(** [if conn in assigned_work: assigned_work.pop(conn)] *)
Definition pop_work (c : conn) (g : globals) : globals :=
  Globals (current_number g) (found g) (found_number g) (clients g)
          (delete c (assigned_work g)) (sent g).

Definition register_client (c : conn) (cores : option Z) (g : globals)
  : globals * Z :=
  let client_cores := match cores with Some k => k | None => 1 end in
  (Globals (current_number g) (found g) (found_number g)
           (clients g ++ [Client c client_cores])
           (assigned_work g) (sent g),
   client_cores).

Definition assign_work (c : conn) (client_cores : Z) (g : globals)
  : globals * option work :=
  let g := pop_work c g in
  if found g then (send_message c Stop g, None)
  else
    let block_size := BLOCK_SIZE_PER_CORE * client_cores in
    let start := current_number g in
    let end_ := Z.min (current_number g + block_size - 1) END_NUMBER in
    if start >? END_NUMBER then (send_message c NoWork g, None)
    else
      let w := Work start end_ in
      let g := Globals (end_ + 1) (found g) (found_number g) (clients g)
                       (<[c := w]> (assigned_work g)) (sent g) in
      (send_message c (WorkMsg (Server.start w) (Server.end_ w) TARGET_HASH) g,
       Some w).

(** [for client in clients: send_message(client['conn'], {'type': 'stop'})] *)
Definition stop_all (cs : list client) : list (conn * reply) :=
  map (fun cl => (client_conn cl, Stop)) cs.

Definition notify_all_clients (g : globals) : globals :=
  Globals (current_number g) (found g) (found_number g) (clients g)
          (assigned_work g) (sent g ++ stop_all (clients g)).

(** the [with lock] block of [handle_found]; [true] in the second
    component is the KeyError of [message['number']], raised after
    [found = True] *)
Definition handle_found_locked (c : conn) (number : option pyvalue)
    (g : globals) : globals * bool :=
  let g := pop_work c g in
  if found g then (g, false)
  else
    match number with
    | Some v =>
        (Globals (current_number g) true v (clients g)
                 (assigned_work g) (sent g), false)
    | None =>
        (Globals (current_number g) true (found_number g) (clients g)
                 (assigned_work g) (sent g), true)
    end.

Definition handle_found (c : conn) (number : option pyvalue) (g : globals)
  : globals * bool :=
  let '(g, raised) := handle_found_locked c number g in
  if raised then (g, true) else (notify_all_clients g, false).

Definition cleanup_client (c : conn) (g : globals) : globals :=
  let g := pop_work c g in
  Globals (current_number g) (found g) (found_number g)
          (filter (fun cl => client_conn cl ≠ c) (clients g))
          (assigned_work g) (sent g).

(** The coordinator with its handler threads: [handlers] holds, for
    every connection whose [handle_client] is running, the local
    variable [client_cores] of that call. *)
Record system := System {
  shared : globals;
  handlers : gmap conn Z
}.

Definition startup : system := System initial ∅.

Inductive event :=
| Accept (c : conn)                (* server_main starts handle_client *)
| Line (c : conn) (m : message)    (* one line read from [c] *)
| Closed (c : conn).               (* recv returns nothing, or raises *)

(** the [finally] clause of [handle_client] *)
Definition finish (c : conn) (sys : system) : system :=
  System (cleanup_client c (shared sys)) (delete c (handlers sys)).

(** one iteration of the inner loop of [handle_client] on connection
    [c], whose local [client_cores] is [k] *)
Definition dispatch (c : conn) (k : Z) (m : message) (sys : system) : system :=
  match m with
  | BadJson => sys
  | NoType => finish c sys
  | Register cores =>
      let '(g, k') := register_client c cores (shared sys) in
      System g (<[c := k']> (handlers sys))
  | RequestWork =>
      System (fst (assign_work c k (shared sys))) (handlers sys)
  | FoundMsg number =>
      let '(g, raised) := handle_found c number (shared sys) in
      let sys' := System g (handlers sys) in
      if raised then finish c sys' else sys'
  | OtherType => sys
  end.

(** The handling of a line is run in one piece: its lock blocks and the
    sends after them follow one another with no other handler in between.
    This is one of the ways the threads can take turns, and what ends up
    in the globals that the lock protects does not depend on more; the
    order in which messages of different handlers leave does, and is
    followed in [Threads] below. *)
Definition step (sys : system) (e : event) : system :=
  match e with
  | Accept c =>
      match handlers sys !! c with
      | Some _ => sys
      | None => System (shared sys) (<[c := 1]> (handlers sys))
      end
  | Line c m =>
      match handlers sys !! c with
      | Some k => dispatch c k m sys
      | None => sys
      end
  | Closed c =>
      match handlers sys !! c with
      | Some _ => finish c sys
      | None => sys
      end
  end.

Definition run (sys : system) (evs : list event) : system :=
  fold_left step evs sys.

(** the spec's GlobalOutcome, read off [found] and [found_number] *)
Inductive outcome :=
| Unset
| FoundValue (v : pyvalue).

Definition GlobalOutcome (g : globals) : outcome :=
  if found g then FoundValue (found_number g) else Unset.

(** a sequence of [assign_work] calls, each with the connection and the
    [client_cores] it is called with; the result lists the blocks
    issued, oldest first *)
Fixpoint assign_all (calls : list (conn * Z)) (g : globals)
  : globals * list work :=
  match calls with
  | [] => (g, [])
  | (c, k) :: rest =>
      let '(g1, r) := assign_work c k g in
      let '(g2, ws) := assign_all rest g1 in
      (g2, match r with Some w => w :: ws | None => ws end)
  end.

(** the outcome is set, to [v] *)
Definition settled (v : pyvalue) (g : globals) : Prop :=
  found g = true /\ found_number g = v.

(** a [register] line declares at least one core, or leaves the field
    out (and gets the default 1) *)
Definition well_declared (e : event) : Prop :=
  match e with
  | Line _ (Register (Some k)) => 1 <= k
  | _ => True
  end.

(** every running handler holds a core count of at least one *)
Definition cores_positive (sys : system) : Prop :=
  forall c k, handlers sys !! c = Some k -> 1 <= k.

(** a block as the closed range it stands for *)
Definition range_of (w : work) : Z * Z := (start w, end_ w).

(** the [work] messages in a list of sent messages, as blocks *)
Definition issued (l : list (conn * reply)) : list (Z * Z) :=
  omap (fun cm => match snd cm with
                  | WorkMsg s e _ => Some (s, e)
                  | _ => None
                  end) l.

(** a recorded block is a non-empty range of the keyspace that ends below
    the cursor *)
Definition behind_cursor (g : globals) (w : work) : Prop :=
  START_NUMBER <= start w /\ start w <= end_ w /\
  end_ w < current_number g /\ end_ w <= END_NUMBER.

(** the blocks of [assigned_work] are behind the cursor, and those of two
    different connections share no number *)
Definition assignments_sound (g : globals) : Prop :=
  (forall c w, assigned_work g !! c = Some w -> behind_cursor g w) /\
  (forall c1 c2 w1 w2,
     c1 <> c2 ->
     assigned_work g !! c1 = Some w1 -> assigned_work g !! c2 = Some w2 ->
     end_ w1 < start w2 \/ end_ w2 < start w1).

(** no block can be carved any more: a number has been found, or the
    cursor is beyond the keyspace *)
Definition search_over (g : globals) : Prop :=
  found g = true \/ END_NUMBER < current_number g.

(** a connection without a running handler has no block and no
    registration *)
Definition no_leftovers (sys : system) : Prop :=
  forall c, handlers sys !! c = None ->
            assigned_work (shared sys) !! c = None /\
            Forall (fun cl => client_conn cl <> c) (clients (shared sys)).

(** how many [stop] messages [l] holds for connection [c] *)
Definition stops_to (c : conn) (l : list (conn * reply)) : nat :=
  List.length (List.filter
                 (fun cm => Nat.eqb (fst cm) c
                            && match snd cm with Stop => true | _ => false end) l).

(** how many registrations connection [c] has *)
Definition registrations (c : conn) (cs : list client) : nat :=
  List.length (List.filter (fun cl => Nat.eqb (client_conn cl) c) cs).

End Server.

(* ===================================================================== *)
(** ** server.py, one lock block at a time                                *)
(* ===================================================================== *)

(** [Server.step] runs the handling of a line in one piece.  In the code a
    handler leaves the lock between the block of [assign_work] and the
    send of the [work] message, between the block of [handle_found] and
    [notify_all_clients], and before [cleanup_client]; other handlers may
    run in between, and the [work] message may leave while another
    handler is inside the loop of [notify_all_clients].  Here every lock
    block, every send outside one and every send of that loop is a step of
    its own; a step that needs the lock waits while a handler is inside
    the loop; and [sent] is the order in which [send_message] is really
    called. *)
Module Threads.
Import Protocol Server.

(** what a handler has still to do after the lock block it has left *)
Inductive action :=
| SendWork (w : work)   (* assign_work: send_message(conn, work_message) *)
| Notify                (* handle_found: notify_all_clients() *)
| Notifying (rest : list conn)
                        (* inside the loop of notify_all_clients, the lock held *)
| Cleanup.              (* the finally clause, after the KeyError of handle_found *)

Record threads := Threads {
  globals_of : globals;
  cores_of : gmap conn Z;           (* client_cores of every running handler *)
  todo : list (conn * action)       (* handlers between two lock blocks *)
}.

Definition startup : threads := Threads initial ∅ [].

(** the [with lock] block of [assign_work]: [stop] and [no_work] are sent
    inside it, the [work] message is not *)
Definition assign_work_locked (c : conn) (client_cores : Z) (g : globals)
  : globals * option work :=
  let g := pop_work c g in
  if found g then (send_message c Stop g, None)
  else
    let block_size := BLOCK_SIZE_PER_CORE * client_cores in
    let start := current_number g in
    let end_ := Z.min (current_number g + block_size - 1) END_NUMBER in
    if start >? END_NUMBER then (send_message c NoWork g, None)
    else
      let w := Work start end_ in
      (Globals (end_ + 1) (found g) (found_number g) (clients g)
               (<[c := w]> (assigned_work g)) (sent g),
       Some w).

Fixpoint todo_of (c : conn) (l : list (conn * action)) : option action :=
  match l with
  | [] => None
  | (c', a) :: l' => if Nat.eqb c' c then Some a else todo_of c l'
  end.

Fixpoint drop_todo (c : conn) (l : list (conn * action)) : list (conn * action) :=
  match l with
  | [] => []
  | (c', a) :: l' => if Nat.eqb c' c then l' else (c', a) :: drop_todo c l'
  end.

(** [lock] is held from one step to the next only by a handler inside
    the loop of [notify_all_clients] *)
Definition lock_held (l : list (conn * action)) : bool :=
  existsb (fun ca => match snd ca with
                     | Notifying _ => true
                     | _ => false
                     end) l.

Inductive event :=
| Accept (c : conn)                (* server_main starts handle_client *)
| Line (c : conn) (m : message)    (* the handler reads a line and runs its lock block *)
| Closed (c : conn)                (* recv returns nothing, or raises *)
| Resume (c : conn).               (* the handler does what it has still to do *)

(** [cleanup_client] and the end of the thread *)
Definition finish (c : conn) (t : threads) : threads :=
  Threads (cleanup_client c (globals_of t)) (delete c (cores_of t))
          (drop_todo c (todo t)).

Definition dispatch (c : conn) (k : Z) (m : message) (t : threads) : threads :=
  match m with
  | BadJson => t
  | NoType => finish c t
  | Register cores =>
      let '(g, k') := register_client c cores (globals_of t) in
      Threads g (<[c := k']> (cores_of t)) (todo t)
  | RequestWork =>
      let '(g, r) := assign_work_locked c k (globals_of t) in
      Threads g (cores_of t)
              (match r with
               | Some w => todo t ++ [(c, SendWork w)]
               | None => todo t
               end)
  | FoundMsg number =>
      let '(g, raised) := handle_found_locked c number (globals_of t) in
      Threads g (cores_of t) (todo t ++ [(c, if raised then Cleanup else Notify)])
  | OtherType => t
  end.

Definition resume (c : conn) (t : threads) : threads :=
  match todo_of c (todo t) with
  | None => t
  | Some (SendWork w) =>
      Threads (send_message c (WorkMsg (start w) (end_ w) TARGET_HASH) (globals_of t))
              (cores_of t) (drop_todo c (todo t))
  | Some Notify =>
      if lock_held (todo t) then t
      else Threads (globals_of t) (cores_of t)
                   (drop_todo c (todo t)
                    ++ [(c, Notifying (map client_conn (clients (globals_of t))))])
  | Some (Notifying (c' :: rest)) =>
      Threads (send_message c' Stop (globals_of t)) (cores_of t)
              (drop_todo c (todo t) ++ [(c, Notifying rest)])
  | Some (Notifying []) =>
      Threads (globals_of t) (cores_of t) (drop_todo c (todo t))
  | Some Cleanup => if lock_held (todo t) then t else finish c t
  end.

(** a handler reads its next line, or sees the end of its connection,
    only when it has nothing left to do for the line before; what the
    line makes it do starts with a lock block, but for a line that is not
    JSON or has another type, which changes nothing *)
Definition step (t : threads) (e : event) : threads :=
  match e with
  | Accept c =>
      match cores_of t !! c with
      | Some _ => t
      | None => Threads (globals_of t) (<[c := 1]> (cores_of t)) (todo t)
      end
  | Line c m =>
      match cores_of t !! c, todo_of c (todo t) with
      | Some k, None => if lock_held (todo t) then t else dispatch c k m t
      | _, _ => t
      end
  | Closed c =>
      match cores_of t !! c, todo_of c (todo t) with
      | Some _, None => if lock_held (todo t) then t else finish c t
      | _, _ => t
      end
  | Resume c => resume c t
  end.

Definition run (t : threads) (evs : list event) : threads :=
  fold_left step evs t.

(** the blocks carved and not yet sent *)
Definition waiting (l : list (conn * action)) : list (Z * Z) :=
  omap (fun ca => match snd ca with
                  | SendWork w => Some (range_of w)
                  | _ => None
                  end) l.

Definition well_declared (e : event) : Prop :=
  match e with
  | Line _ (Register (Some k)) => 1 <= k
  | _ => True
  end.

Definition cores_positive (t : threads) : Prop :=
  forall c k, cores_of t !! c = Some k -> 1 <= k.

(** every block of [assigned_work] has been given to [send_message] for
    its connection, or its handler is about to do so *)
Definition assignments_announced (t : threads) : Prop :=
  forall c w, assigned_work (globals_of t) !! c = Some w ->
    In (c, WorkMsg (start w) (end_ w) TARGET_HASH) (sent (globals_of t)) \/
    todo_of c (todo t) = Some (SendWork w).

(** a step that carves no block and sends no [work] message *)
Definition quiet_step (t t' : threads) : Prop :=
  current_number (globals_of t') = current_number (globals_of t) /\
  (found (globals_of t) = true -> found (globals_of t') = true) /\
  (forall c w, assigned_work (globals_of t') !! c = Some w ->
               assigned_work (globals_of t) !! c = Some w) /\
  (exists new, sent (globals_of t') = sent (globals_of t) ++ new /\
               issued new = []) /\
  waiting (todo t') = waiting (todo t) /\
  (forall c w, todo_of c (todo t) = Some (SendWork w) ->
               todo_of c (todo t') = Some (SendWork w)).

(** a step of [Server.step] as a run of lock blocks: the line is
    followed at once by all that its handler has still to do, which is at
    most a step to take the lock, a [stop] for every entry of [clients]
    and a step to give the lock back *)
Definition in_one_piece (sys : system) (e : Server.event) : list event :=
  match e with
  | Server.Accept c => [Accept c]
  | Server.Line c m =>
      Line c m :: repeat (Resume c) (length (clients (shared sys)) + 2)
  | Server.Closed c => [Closed c]
  end.

Fixpoint all_in_one_piece (sys : system) (evs : list Server.event) : list event :=
  match evs with
  | [] => []
  | e :: evs' => in_one_piece sys e ++ all_in_one_piece (Server.step sys e) evs'
  end.

(** the handlers of [Server.system], none of them between two lock blocks *)
Definition at_rest (sys : system) : threads :=
  Threads (shared sys) (handlers sys) [].

End Threads.

(* ===================================================================== *)
(** ** Lines on the socket: [send_message] and the receive loops          *)
(* ===================================================================== *)

Module Wire.












(** a value of a message field *)
Inductive jvalue :=
| JInt (z : Z)
| JStr (s : string).











(** the dicts [process_work] sends: [register_message],
    [request_message] and [found_message] *)
Inductive request :=
| SendRegister (cores : Z)
| SendRequestWork (cores : Z)
| SendFound (found_number : string).

Definition request_fields (m : request) : list (string * jvalue) :=
  match m with
  | SendRegister cores => [("type"%string, JStr "register"); ("cores"%string, JInt cores)]
  | SendRequestWork cores =>
      [("type"%string, JStr "request_work"); ("cores"%string, JInt cores)]
  | SendFound found_number =>
      [("type"%string, JStr "found"); ("number"%string, JStr found_number)]
  end.



(** the character codes of a string *)
Definition codes (s : string) : list Z :=
  map (fun a => Z.of_N (N_of_ascii a)) (list_ascii_of_string s).

End Wire.

(* ===================================================================== *)
(** ** The library services on known inputs                               *)
(* ===================================================================== *)

Example md5_empty :
  Hashlib.md5_hexdigest (Hashlib.encode "") = "d41d8cd98f00b204e9800998ecf8427e"%string.
Proof. vm_compute. reflexivity. Qed.

Example md5_abc :
  Hashlib.md5_hexdigest (Hashlib.encode "abc") = "900150983cd24fb0d6963f7d28e17f72"%string.
Proof. vm_compute. reflexivity. Qed.

Example md5_two_blocks :
  Hashlib.md5_hexdigest (repeat 97 70) = "0f5c6c4e740bfcc08c3c26ccb2673d46"%string.
Proof. vm_compute. reflexivity. Qed.

Example format_42 : Fmt.format_010d 42 = "0000000042"%string.
Proof. reflexivity. Qed.

Example format_negative : Fmt.format_010d (-5) = "-000000005"%string.
Proof. reflexivity. Qed.

Example format_wide : Fmt.format_010d 12345678901 = "12345678901"%string.
Proof. vm_compute. reflexivity. Qed.

Example format_zero : Fmt.format_010d 0 = "0000000000"%string.
Proof. reflexivity. Qed.

Example split_0_99_4 :
  Client.sub_ranges 0 99 4 = Some [(0, 24); (25, 49); (50, 74); (75, 99)].
Proof. reflexivity. Qed.

Example split_remainder :
  Client.sub_ranges 0 9 4 = Some [(0, 1); (2, 3); (4, 5); (6, 9)].
Proof. reflexivity. Qed.

Example split_small_block :
  Client.sub_ranges 5 6 4 = Some [(5, 4); (5, 4); (5, 4); (5, 6)].
Proof. reflexivity. Qed.

Example worker_finds_42 :
  Client.worker 0 99 "2FB362FBF84BEDB41530AF52286EA596" = Some "0000000042"%string.
Proof. vm_compute. reflexivity. Qed.

(* ===================================================================== *)
(** ** Ranges that tile a segment                                         *)
(* ===================================================================== *)

Section IntervalFacts.
Import Interval.

Lemma cover_cons n r rs :
  cover n (r :: rs) = ((if inside n r then 1 else 0) + cover n rs)%nat.
Proof. unfold cover. simpl. destruct (inside n r); reflexivity. Qed.

Lemma cover_app n rs1 rs2 :
  cover n (rs1 ++ rs2) = (cover n rs1 + cover n rs2)%nat.
Proof.
  unfold cover. rewrite List.filter_app, List.length_app. reflexivity.
Qed.

Lemma tiles_le lo rs hi : tiles lo rs hi -> lo <= hi.
Proof. induction 1; lia. Qed.

Lemma tiles_app a xs b ys c :
  tiles a xs b -> tiles b ys c -> tiles a (xs ++ ys) c.
Proof.
  induction 1 as [lo | lo e rs hi Hle Hrs IH]; intros Hys; simpl.
  - exact Hys.
  - constructor; [exact Hle | apply IH, Hys].
Qed.

Lemma tiles_one lo e : lo <= e + 1 -> tiles lo [(lo, e)] (e + 1).
Proof. intros H. constructor; [exact H | constructor]. Qed.

(** every number of the segment is in exactly one range, every other
    number in none *)
Lemma tiles_cover lo rs hi :
  tiles lo rs hi ->
  forall n, cover n rs = if (lo <=? n) && (n <? hi) then 1%nat else 0%nat.
Proof.
  induction 1 as [lo | lo e rs hi Hle Hrs IH]; intros n.
  - unfold cover; simpl.
    destruct (Z.leb_spec lo n), (Z.ltb_spec n lo); simpl; try reflexivity; lia.
  - rewrite cover_cons, IH. unfold inside; simpl.
    pose proof (tiles_le _ _ _ Hrs) as Hhi.
    destruct (Z.leb_spec lo n), (Z.leb_spec n e), (Z.leb_spec (e + 1) n),
      (Z.ltb_spec n hi); simpl; try reflexivity; lia.
Qed.

Lemma tiles_bounds lo rs hi :
  tiles lo rs hi ->
  forall j r, rs !! j = Some r -> lo <= fst r /\ snd r < hi.
Proof.
  induction 1 as [lo | lo e rs hi Hle Hrs IH]; intros j r Hj.
  - destruct j; discriminate.
  - pose proof (tiles_le _ _ _ Hrs) as Hhi.
    destruct j as [| j]; simpl in Hj.
    + injection Hj as <-. simpl. lia.
    + destruct (IH j r Hj). lia.
Qed.

Lemma tiles_disjoint lo rs hi : tiles lo rs hi -> pairwise_disjoint rs.
Proof.
  induction 1 as [lo | lo e rs hi Hle Hrs IH]; intros i j ri rj Hij Hi Hj.
  - destruct i; discriminate.
  - destruct j as [| j]; [lia |]. simpl in Hj.
    destruct i as [| i]; simpl in Hi.
    + injection Hi as <-. simpl.
      destruct (tiles_bounds _ _ _ Hrs j rj Hj). lia.
    + apply (IH i j ri rj); [lia | exact Hi | exact Hj].
Qed.

End IntervalFacts.

(* ===================================================================== *)
(** ** process_work: the split of a block over the local processes       *)
(* ===================================================================== *)

Section SubRanges.
Import Interval Client.

Variables start end_ cores : Z.
Hypothesis block_nonempty : start <= end_.
Hypothesis some_process : 1 <= cores.

Let per_process := (end_ - start + 1) / cores.

Lemma per_process_bounds :
  0 <= per_process /\ per_process * cores <= end_ - start + 1.
Proof.
  unfold per_process. split.
  - apply Z.div_pos; lia.
  - rewrite Z.mul_comm. apply Z.mul_div_le. lia.
Qed.

(** the processes [a, a + m) tile the block from the start of
    process [a] on, when [a + m] is the number of processes *)
Lemma bounds_tile m : forall a,
  (a + m = Z.to_nat cores)%nat -> (1 <= m)%nat ->
  tiles (start + Z.of_nat a * per_process)
        (map (process_bounds start end_ cores per_process)
             (map (fun i => 0 + Z.of_nat i) (seq a m)))
        (end_ + 1).
Proof.
  destruct per_process_bounds as [Hpp Hmul].
  induction m as [| m IH]; intros a Ham Hm; [lia |].
  simpl. unfold process_bounds at 1.
  destruct m as [| m'].
  - assert (Ha : Z.of_nat a = cores - 1) by lia.
    replace (0 + Z.of_nat a <? cores - 1) with false
      by (symmetry; apply Z.ltb_ge; lia).
    replace (0 + Z.of_nat a) with (Z.of_nat a) by lia.
    apply tiles_one. rewrite Ha. nia.
  - replace (0 + Z.of_nat a <? cores - 1) with true
      by (symmetry; apply Z.ltb_lt; lia).
    replace (0 + Z.of_nat a) with (Z.of_nat a) by lia.
    constructor; [nia |].
    replace (start + (Z.of_nat a + 1) * per_process - 1 + 1)
      with (start + Z.of_nat (S a) * per_process) by lia.
    apply IH; lia.
Qed.

(** all processes but the last get exactly [per_process] numbers *)
Lemma bounds_front m : forall a,
  (a + m < Z.to_nat cores)%nat ->
  Forall (fun r => snd r - fst r + 1 = per_process)
         (map (process_bounds start end_ cores per_process)
              (map (fun i => 0 + Z.of_nat i) (seq a m))).
Proof.
  induction m as [| m IH]; intros a Ham; simpl; constructor.
  - unfold process_bounds.
    replace (0 + Z.of_nat a <? cores - 1) with true
      by (symmetry; apply Z.ltb_lt; lia).
    simpl. lia.
  - apply IH. lia.
Qed.

Lemma sub_ranges_eq :
  sub_ranges start end_ cores =
  Some (map (process_bounds start end_ cores per_process)
            (map (fun i => 0 + Z.of_nat i) (seq 0 (Z.to_nat cores)))).
Proof.
  unfold sub_ranges, py_range.
  replace (cores =? 0) with false by (symmetry; apply Z.eqb_neq; lia).
  replace (cores - 0) with cores by lia. reflexivity.
Qed.

End SubRanges.

(** C6: for a block [start, end] with [start <= end] and [cores >= 1],
    the sub-ranges of [process_work] are [cores] many, each starts right
    after the one before, they are pairwise disjoint, every number of the
    block lies in exactly one of them and no other number in any; all but
    the last hold [total // cores] numbers and the last ends at [end],
    absorbing the remainder.  Block [0, 99] on 4 processes gives
    [0,24], [25,49], [50,74], [75,99]. *)
Theorem sub_ranges_partition (start end_ cores : Z) :
  start <= end_ -> 1 <= cores ->
  exists rs front,
    Client.sub_ranges start end_ cores = Some rs /\
    Z.of_nat (List.length rs) = cores /\
    Interval.tiles start rs (end_ + 1) /\
    Interval.pairwise_disjoint rs /\
    (forall n, Interval.cover n rs =
               if (start <=? n) && (n <=? end_) then 1%nat else 0%nat) /\
    rs = front ++ [(start + (cores - 1) * ((end_ - start + 1) / cores), end_)] /\
    Forall (fun r => snd r - fst r + 1 = (end_ - start + 1) / cores) front /\
    Client.sub_ranges 0 99 4 = Some [(0, 24); (25, 49); (50, 74); (75, 99)].
Proof.
  intros Hse Hc.
  pose proof (bounds_tile start end_ cores Hse Hc (Z.to_nat cores) 0%nat) as Ht.
  specialize (Ht ltac:(lia) ltac:(lia)).
  change (Z.of_nat 0) with 0 in Ht. rewrite Z.mul_0_l, Z.add_0_r in Ht.
  eexists.
  exists (map (Client.process_bounds start end_ cores ((end_ - start + 1) / cores))
              (map (fun i => 0 + Z.of_nat i) (seq 0 (Z.to_nat (cores - 1))))).
  split; [apply sub_ranges_eq; lia |].
  split; [rewrite !List.length_map, List.length_seq; lia |].
  split; [exact Ht |].
  split; [exact (tiles_disjoint _ _ _ Ht) |].
  split.
  { intros n. rewrite (tiles_cover _ _ _ Ht).
    destruct (Z.leb_spec start n), (Z.ltb_spec n (end_ + 1)), (Z.leb_spec n end_);
      simpl; try reflexivity; lia. }
  split.
  { replace (Z.to_nat cores) with (S (Z.to_nat (cores - 1))) by lia.
    rewrite seq_S, !List.map_app. simpl.
    unfold Client.process_bounds at 2.
    replace (0 + Z.of_nat (Z.to_nat (cores - 1)) <? cores - 1) with false
      by (symmetry; apply Z.ltb_ge; lia).
    replace (0 + Z.of_nat (Z.to_nat (cores - 1))) with (cores - 1) by lia.
    reflexivity. }
  split; [| reflexivity].
  apply bounds_front. all: lia.
Qed.

(* ===================================================================== *)
(** ** The fixed-width decimal form of a candidate                        *)
(* ===================================================================== *)

Section Formatting.
Import Fmt.

Lemma digit_cases d :
  0 <= d < 10 ->
  d = 0 \/ d = 1 \/ d = 2 \/ d = 3 \/ d = 4 \/
  d = 5 \/ d = 6 \/ d = 7 \/ d = 8 \/ d = 9.
Proof. lia. Qed.

Lemma digit_char_value d : 0 <= d < 10 -> digit_of_char (digit_char d) = d.
Proof.
  intros H. destruct (digit_cases d H) as [-> | [-> | [-> | [-> | [-> |
    [-> | [-> | [-> | [-> | ->]]]]]]]]]; reflexivity.
Qed.

Lemma digit_char_is_digit d : 0 <= d < 10 -> is_digit (digit_char d) = true.
Proof.
  intros H. destruct (digit_cases d H) as [-> | [-> | [-> | [-> | [-> |
    [-> | [-> | [-> | [-> | ->]]]]]]]]]; reflexivity.
Qed.

Lemma pow2_succ (f : nat) : 2 ^ Z.of_nat (S f) = 2 * 2 ^ Z.of_nat f.
Proof. rewrite Nat2Z.inj_succ, Z.pow_succ_r; lia. Qed.

Lemma pow10_succ (k : nat) : 10 ^ Z.of_nat (S k) = 10 * 10 ^ Z.of_nat k.
Proof. rewrite Nat2Z.inj_succ, Z.pow_succ_r; lia. Qed.

Lemma digits_onto_value fuel : forall n acc,
  0 <= n < 2 ^ Z.of_nat fuel ->
  decimal_value (digits_onto fuel n acc) =
  n * 10 ^ Z.of_nat (String.length acc) + decimal_value acc.
Proof.
  induction fuel as [| fuel IH]; intros n acc Hn.
  - simpl in *. assert (n = 0) by lia. subst. lia.
  - rewrite pow2_succ in Hn.
    cbn [digits_onto].
    pose proof (Z.mod_pos_bound n 10 ltac:(lia)) as Hmod.
    pose proof (Z.div_mod n 10 ltac:(lia)) as Hdm.
    destruct (Z.eqb_spec (n / 10) 0) as [Hq | Hq].
    + cbn [decimal_value]. rewrite digit_char_value by lia.
      replace (n mod 10) with n by lia. reflexivity.
    + rewrite IH.
      * cbn [decimal_value String.length].
        rewrite digit_char_value by lia. rewrite pow10_succ.
        set (p := 10 ^ Z.of_nat (String.length acc)).
        rewrite Hdm at 3. ring.
      * split; [apply Z.div_pos; lia |].
        apply Z.div_lt_upper_bound; lia.
Qed.

Lemma digits_onto_length fuel : forall n acc (k : nat),
  0 <= n < 2 ^ Z.of_nat fuel -> n < 10 ^ Z.of_nat (S k) ->
  (String.length (digits_onto fuel n acc) <= S k + String.length acc)%nat.
Proof.
  induction fuel as [| fuel IH]; intros n acc k Hn Hk.
  - simpl. lia.
  - rewrite pow2_succ in Hn.
    cbn [digits_onto].
    destruct (Z.eqb_spec (n / 10) 0) as [Hq | Hq].
    + cbn [String.length]. lia.
    + pose proof (Z.div_mod n 10 ltac:(lia)) as Hdm.
      pose proof (Z.mod_pos_bound n 10 ltac:(lia)) as Hmod.
      assert (Hq' : 0 < n / 10) by (pose proof (Z.div_pos n 10); lia).
      destruct k as [| k].
      { change (10 ^ Z.of_nat 1) with 10 in Hk. lia. }
      rewrite pow10_succ in Hk.
      assert (H2 : n / 10 < 2 ^ Z.of_nat fuel)
        by (apply Z.div_lt_upper_bound; lia).
      assert (H10 : n / 10 < 10 ^ Z.of_nat (S k))
        by (apply Z.div_lt_upper_bound; lia).
      specialize (IH (n / 10) (String (digit_char (n mod 10)) acc) k
                     ltac:(lia) H10).
      cbn [String.length] in IH. lia.
Qed.

Lemma digits_onto_grows fuel : forall n acc,
  (String.length acc <= String.length (digits_onto fuel n acc))%nat.
Proof.
  induction fuel as [| fuel IH]; intros n acc; [simpl; lia |].
  cbn [digits_onto]. destruct (n / 10 =? 0).
  - cbn [String.length]. lia.
  - specialize (IH (n / 10) (String (digit_char (n mod 10)) acc)).
    cbn [String.length] in IH. lia.
Qed.

Lemma digits_onto_all_digits fuel : forall n acc,
  0 <= n -> all_digits acc = true ->
  all_digits (digits_onto fuel n acc) = true.
Proof.
  induction fuel as [| fuel IH]; intros n acc Hn Hacc; [exact Hacc |].
  cbn [digits_onto].
  pose proof (Z.mod_pos_bound n 10 ltac:(lia)) as Hmod.
  assert (Hacc' : all_digits (String (digit_char (n mod 10)) acc) = true).
  { cbn [all_digits]. rewrite digit_char_is_digit by lia. exact Hacc. }
  destruct (n / 10 =? 0); [exact Hacc' |].
  apply IH; [apply Z.div_pos; lia | exact Hacc'].
Qed.

Lemma bits_enough n : 0 <= n -> n < 2 ^ Z.of_nat (bits n).
Proof.
  intros Hn. unfold bits.
  destruct (Z.eq_dec n 0) as [-> | Hne]; [reflexivity |].
  rewrite Nat2Z.inj_succ, Z2Nat.id by apply Z.log2_nonneg.
  apply Z.log2_spec. lia.
Qed.

Lemma zeros_length k s : String.length (zeros k s) = (k + String.length s)%nat.
Proof. induction k as [| k IH]; simpl; [reflexivity | rewrite IH; reflexivity]. Qed.

Lemma zeros_value k s : decimal_value (zeros k s) = decimal_value s.
Proof.
  induction k as [| k IH]; [reflexivity |].
  cbn [zeros decimal_value]. rewrite IH.
  change (digit_of_char "0") with 0. lia.
Qed.

Lemma zeros_all_digits k s : all_digits s = true -> all_digits (zeros k s) = true.
Proof. intros H. induction k as [| k IH]; [exact H | exact IH]. Qed.

Lemma digits_value n : 0 <= n -> decimal_value (digits n) = n.
Proof.
  intros Hn. unfold digits.
  rewrite digits_onto_value by (split; [exact Hn | apply bits_enough, Hn]).
  simpl. lia.
Qed.

Lemma digits_length n (k : nat) :
  0 <= n < 10 ^ Z.of_nat (S k) ->
  (0 < String.length (digits n) <= S k)%nat.
Proof.
  intros [Hn Hk]. split.
  - unfold digits, bits. cbn [digits_onto].
    destruct (n / 10 =? 0); [cbn [String.length]; lia |].
    pose proof (digits_onto_grows (Z.to_nat (Z.log2 n)) (n / 10)
                  (String (digit_char (n mod 10)) EmptyString)) as H.
    cbn [String.length] in H. lia.
  - pose proof (digits_onto_length (bits n) n EmptyString k
                  (conj Hn (bits_enough n Hn)) Hk) as H.
    change (String.length EmptyString) with 0%nat in H.
    unfold digits. lia.
Qed.

Lemma digits_all_digits n : 0 <= n -> all_digits (digits n) = true.
Proof. intros Hn. apply digits_onto_all_digits; [exact Hn | reflexivity]. Qed.

(** inside the keyspace the fixed-width form has exactly ten decimal
    digits and reads back as the number *)
Lemma format_010d_keyspace n :
  0 <= n <= 9999999999 ->
  String.length (format_010d n) = 10%nat /\
  all_digits (format_010d n) = true /\
  decimal_value (format_010d n) = n.
Proof.
  intros Hn. unfold format_010d.
  replace (n <? 0) with false by (symmetry; apply Z.ltb_ge; lia).
  unfold zfill.
  assert (Hk : 0 <= n < 10 ^ Z.of_nat 10).
  { change (10 ^ Z.of_nat 10) with 10000000000. lia. }
  pose proof (digits_length n 9 Hk) as Hlen.
  split; [rewrite zeros_length; lia |].
  split; [apply zeros_all_digits, digits_all_digits; lia |].
  rewrite zeros_value. apply digits_value. lia.
Qed.

Lemma format_010d_nonempty n : format_010d n <> EmptyString.
Proof.
  unfold format_010d. destruct (n <? 0); [discriminate |].
  intros H. apply (f_equal String.length) in H.
  unfold zfill in H. rewrite zeros_length in H. simpl in H.
  assert (0 < String.length (digits n))%nat; [| lia].
  unfold digits, bits. cbn [digits_onto].
  destruct (n / 10 =? 0); [cbn [String.length]; lia |].
  pose proof (digits_onto_grows (Z.to_nat (Z.log2 n)) (n / 10)
                (String (digit_char (n mod 10)) EmptyString)) as H'.
  cbn [String.length] in H'. lia.
Qed.

End Formatting.

(* ===================================================================== *)
(** ** worker: the scan of one sub-range                                  *)
(* ===================================================================== *)

Section Worker.
Import Client.

Variable target_hash : string.

Local Abbreviation hits := (Client.hits target_hash).

Lemma py_range_nil lo hi : hi <= lo -> py_range lo hi = [].
Proof.
  intros H. unfold py_range.
  replace (Z.to_nat (hi - lo)) with 0%nat by lia. reflexivity.
Qed.

Lemma py_range_cons lo hi :
  lo < hi -> py_range lo hi = lo :: py_range (lo + 1) hi.
Proof.
  intros H. unfold py_range.
  replace (Z.to_nat (hi - lo)) with (S (Z.to_nat (hi - (lo + 1)))) by lia.
  cbn [seq map]. f_equal; [lia |].
  rewrite <- seq_shift, List.map_map.
  apply List.map_ext. intros i. lia.
Qed.

Lemma scan_step number rest :
  scan (number :: rest) target_hash =
  if String.eqb (hash_result (Fmt.format_010d number)) target_hash
  then Some (Fmt.format_010d number)
  else scan rest target_hash.
Proof. reflexivity. Qed.

(** the scan of [lo, hi) stops at the smallest hit and puts its
    fixed-width form on the queue; induction on the length of the range *)
Lemma scan_range (k : nat) : forall lo hi,
  Z.to_nat (hi - lo) = k ->
  (forall v, scan (py_range lo hi) target_hash = Some v <->
     exists n, lo <= n < hi /\ hits n /\
               (forall m, lo <= m < n -> ~ hits m) /\
               v = Fmt.format_010d n) /\
  (scan (py_range lo hi) target_hash = None <->
     forall n, lo <= n < hi -> ~ hits n).
Proof.
  induction k as [| k IH]; intros lo hi Hk.
  - rewrite py_range_nil by lia. simpl. split.
    + intros v. split; [discriminate |]. intros (n & Hn & _). lia.
    + split; [| reflexivity]. intros _ n Hn. lia.
  - rewrite py_range_cons by lia. rewrite scan_step.
    destruct (IH (lo + 1) hi ltac:(lia)) as [IHsome IHnone].
    unfold hits in *.
    destruct (String.eqb_spec (hash_result (Fmt.format_010d lo)) target_hash)
      as [Hhit | Hmiss].
    + split.
      * intros v. split.
        -- intros [= <-]. exists lo. repeat split; try lia; try exact Hhit.
        -- intros (n & Hn & Hh & Hfirst & ->).
           destruct (Z.eq_dec n lo) as [-> | Hne]; [reflexivity |].
           exfalso. apply (Hfirst lo); [lia | exact Hhit].
      * split; [discriminate |]. intros Hall. exfalso.
        apply (Hall lo); [lia | exact Hhit].
    + split.
      * intros v. rewrite IHsome. split.
        -- intros (n & Hn & Hh & Hfirst & ->). exists n.
           repeat split; try lia; try exact Hh.
           intros m Hm. destruct (Z.eq_dec m lo) as [-> | Hne];
             [exact Hmiss | apply Hfirst; lia].
        -- intros (n & Hn & Hh & Hfirst & ->). exists n.
           assert (n <> lo) by (intros ->; exact (Hmiss Hh)).
           repeat split; try lia; try exact Hh.
           intros m Hm. apply Hfirst. lia.
      * rewrite IHnone. split.
        -- intros Hall n Hn. destruct (Z.eq_dec n lo) as [-> | Hne];
             [exact Hmiss | apply Hall; lia].
        -- intros Hall n Hn. apply Hall. lia.
Qed.

End Worker.

(** C7: the worker walks its sub-range upwards, hashes the fixed-width
    decimal form of each candidate and compares the upper-cased digest
    with the target.  It reports exactly when some candidate of
    [start, end] hits, and then it reports the smallest one; with no hit
    it reports nothing.  Inside the keyspace the fixed-width form is ten
    decimal digits that read back as the candidate.  On block [0, 99] with
    the fingerprint of 42 the search yields 42 (in its fixed-width form,
    put by the process that owns [25, 49]); on block [0, 99] with the
    coordinator's target, which no candidate below 100 hits, it yields
    nothing.  What is compared with the target is the MD5 digest of the
    ten characters, in hexadecimal and upper case: the digest of
    "0000000042" is 2fb362fb...a596, the worker finds 42 for the target
    2FB362FB...A596 and finds nothing for the same target in lower
    case. *)
Theorem worker_reports_first_match (start end_ : Z) (target_hash : string) :
  (forall v, Client.worker start end_ target_hash = Some v <->
     exists n, start <= n <= end_ /\
               Hashlib.upper
                 (Hashlib.md5_hexdigest (Hashlib.encode (Fmt.format_010d n)))
                 = target_hash /\
               (forall m, start <= m < n ->
                  Hashlib.upper
                    (Hashlib.md5_hexdigest (Hashlib.encode (Fmt.format_010d m)))
                    <> target_hash) /\
               v = Fmt.format_010d n) /\
  (Client.worker start end_ target_hash = None <->
     forall n, start <= n <= end_ ->
               Hashlib.upper
                 (Hashlib.md5_hexdigest (Hashlib.encode (Fmt.format_010d n)))
                 <> target_hash) /\
  (forall n, Server.START_NUMBER <= n <= Server.END_NUMBER ->
     String.length (Fmt.format_010d n) = 10%nat /\
     Fmt.all_digits (Fmt.format_010d n) = true /\
     Fmt.decimal_value (Fmt.format_010d n) = n) /\
  Hashlib.md5_hexdigest (Hashlib.encode "0000000042")
    = "2fb362fbf84bedb41530af52286ea596"%string /\
  Client.hash_result "0000000042" = "2FB362FBF84BEDB41530AF52286EA596"%string /\
  Client.worker 0 99 "2FB362FBF84BEDB41530AF52286EA596"
    = Some "0000000042"%string /\
  Client.queue_puts 0 99 4 "2FB362FBF84BEDB41530AF52286EA596"
    = Some [None; Some "0000000042"%string; None; None] /\
  Client.worker 0 99 "2fb362fbf84bedb41530af52286ea596" = None /\
  Client.worker 0 41 "2FB362FBF84BEDB41530AF52286EA596" = None /\
  Client.worker 0 99 Server.TARGET_HASH = None /\
  Client.queue_puts 0 99 4 Server.TARGET_HASH = Some [None; None; None; None].
Proof.
  destruct (scan_range target_hash (Z.to_nat (end_ + 1 - start)) start (end_ + 1)
              eq_refl) as [Hsome Hnone].
  unfold Client.hits, Client.hash_result in *.
  split.
  { intros v. unfold Client.worker. rewrite Hsome. split.
    - intros (n & Hn & Hh & Hfirst & ->). exists n.
      repeat split; try lia; try exact Hh. exact Hfirst.
    - intros (n & Hn & Hh & Hfirst & ->). exists n.
      repeat split; try lia; try exact Hh. exact Hfirst. }
  split.
  { unfold Client.worker. rewrite Hnone. split.
    - intros Hall n Hn. apply Hall. lia.
    - intros Hall n Hn. apply Hall. lia. }
  split.
  { intros n Hn. apply format_010d_keyspace.
    change Server.START_NUMBER with 0 in Hn.
    change Server.END_NUMBER with 9999999999 in Hn. exact Hn. }
  split; [vm_compute; reflexivity |].
  split; [vm_compute; reflexivity |].
  split; [vm_compute; reflexivity |].
  split; [vm_compute; reflexivity |].
  split; [vm_compute; reflexivity |].
  split; [vm_compute; reflexivity |].
  split; vm_compute; reflexivity.
Qed.

(* ===================================================================== *)
(** ** assign_work                                                        *)
(* ===================================================================== *)

Section AssignWork.
Import Protocol Server.

Lemma END_NUMBER_value : END_NUMBER = 9999999999.
Proof. reflexivity. Qed.

(** the end of the block carved at cursor [cur] for [k] cores *)
Local Abbreviation block_end cur k :=
  (Z.min (cur + BLOCK_SIZE_PER_CORE * k - 1) END_NUMBER).

(** the three ways through [assign_work] *)
Lemma assign_work_cases c k g :
  (found g = true /\
   assign_work c k g = (send_message c Stop (pop_work c g), None)) \/
  (found g = false /\ END_NUMBER < current_number g /\
   assign_work c k g = (send_message c NoWork (pop_work c g), None)) \/
  (found g = false /\ current_number g <= END_NUMBER /\
   assign_work c k g =
     (send_message c
        (WorkMsg (current_number g) (block_end (current_number g) k) TARGET_HASH)
        (Globals (block_end (current_number g) k + 1) (found g)
                 (found_number g) (clients g)
                 (<[c := Work (current_number g) (block_end (current_number g) k)]>
                    (delete c (assigned_work g)))
                 (sent g)),
      Some (Work (current_number g) (block_end (current_number g) k)))).
Proof.
  unfold assign_work. cbn [pop_work found current_number].
  destruct (found g) eqn:Hf.
  - left. split; reflexivity.
  - right. destruct (Z.gtb_spec (current_number g) END_NUMBER) as [Hgt | Hle].
    + left. repeat split. exact Hgt.
    + right. repeat split. exact Hle.
Qed.

Lemma assign_work_found c k g :
  found (fst (assign_work c k g)) = found g /\
  found_number (fst (assign_work c k g)) = found_number g /\
  clients (fst (assign_work c k g)) = clients g.
Proof.
  destruct (assign_work_cases c k g) as [(_ & ->) | [(_ & _ & ->) | (_ & _ & ->)]];
    repeat split.
Qed.

(** with a core count that is not negative the cursor does not move
    back, and never goes beyond [END_NUMBER + 1] *)
Lemma assign_work_cursor c k g :
  0 <= k ->
  current_number g <= current_number (fst (assign_work c k g)) /\
  (current_number g <= END_NUMBER + 1 ->
   current_number (fst (assign_work c k g)) <= END_NUMBER + 1).
Proof.
  intros Hk.
  destruct (assign_work_cases c k g) as [(_ & ->) | [(_ & _ & ->) | (_ & Hle & ->)]];
    cbn [fst send_message pop_work current_number]; try lia.
  unfold BLOCK_SIZE_PER_CORE. lia.
Qed.

Lemma assign_all_app xs : forall ys g,
  assign_all (xs ++ ys) g =
  (fst (assign_all ys (fst (assign_all xs g))),
   snd (assign_all xs g) ++ snd (assign_all ys (fst (assign_all xs g)))).
Proof.
  induction xs as [| [c k] xs IH]; intros ys g.
  - simpl. destruct (assign_all ys g); reflexivity.
  - cbn [assign_all app]. destruct (assign_work c k g) as [g1 r].
    rewrite IH. destruct (assign_all xs g1) as [g2 ws]. cbn [fst snd].
    destruct r; reflexivity.
Qed.

(** what a run of calls keeps true while nothing has been found *)
Lemma assign_all_tiles calls : forall g,
  found g = false ->
  Forall (fun call => 0 <= snd call) calls ->
  found (fst (assign_all calls g)) = false /\
  Interval.tiles (current_number g)
                 (map range_of (snd (assign_all calls g)))
                 (current_number (fst (assign_all calls g))) /\
  (current_number g <= END_NUMBER + 1 ->
   current_number (fst (assign_all calls g)) <= END_NUMBER + 1) /\
  (END_NUMBER < current_number g -> snd (assign_all calls g) = []).
Proof.
  induction calls as [| [c k] calls IH]; intros g Hf Hcalls.
  - simpl. split; [exact Hf |]. split; [constructor |].
    split; [intros H; exact H | reflexivity].
  - inversion Hcalls as [| ? ? Hk Hrest]; subst. cbn [snd] in Hk.
    cbn [assign_all].
    destruct (assign_work_cases c k g)
      as [(Hf' & _) | [(_ & Hgt & E) | (_ & Hle & E)]];
      [congruence | |]; rewrite E; clear E.
    + specialize (IH (send_message c NoWork (pop_work c g)) Hf Hrest).
      destruct (assign_all calls _) as [g2 ws]. cbn [fst snd] in *.
      exact IH.
    + match goal with |- context [assign_all calls ?g1] =>
        specialize (IH g1 Hf Hrest); destruct (assign_all calls g1) as [g2 ws]
      end.
      cbn [fst snd send_message current_number] in *.
      destruct IH as (Hf2 & Ht & Hub & Hnil).
      assert (Hblk : current_number g <= block_end (current_number g) k + 1)
        by (unfold BLOCK_SIZE_PER_CORE; lia).
      split; [exact Hf2 |].
      rewrite List.map_cons.
      change (range_of (Work ?s ?e)) with (s, e).
      split; [constructor; [exact Hblk | exact Ht] |].
      split; [intros _; apply Hub; lia | intros; lia].
Qed.

End AssignWork.

(** C4: once [found] is set, [assign_work] answers [stop] and returns no
    block, for every connection and every core count, wherever the cursor
    stands: the cursor does not move, no block is recorded, and the only
    message sent is the [stop] to the caller. *)
Theorem assign_work_stop_when_found
    (g : Server.globals) (c : Server.conn) (client_cores : Z) :
  Server.found g = true ->
  Server.assign_work c client_cores g
    = (Server.send_message c Protocol.Stop (Server.pop_work c g), None) /\
  Server.sent (fst (Server.assign_work c client_cores g))
    = Server.sent g ++ [(c, Protocol.Stop)] /\
  Server.current_number (fst (Server.assign_work c client_cores g))
    = Server.current_number g /\
  Server.assigned_work (fst (Server.assign_work c client_cores g)) !! c = None.
Proof.
  intros Hf.
  destruct (assign_work_cases c client_cores g)
    as [(_ & E) | [(Hf' & _) | (Hf' & _)]]; try congruence.
  rewrite E. cbn [fst Server.send_message Server.pop_work Server.sent
                  Server.current_number Server.assigned_work].
  repeat split. apply lookup_delete_eq.
Qed.

(** C5: with nothing found and the cursor beyond [END_NUMBER],
    [assign_work] answers [no_work] and returns no block; the cursor stays
    where it is, no [work] message is sent, and the caller is left without
    an assignment. *)
Theorem assign_work_no_work_when_exhausted
    (g : Server.globals) (c : Server.conn) (client_cores : Z) :
  Server.found g = false ->
  Server.current_number g > Server.END_NUMBER ->
  Server.assign_work c client_cores g
    = (Server.send_message c Protocol.NoWork (Server.pop_work c g), None) /\
  Server.sent (fst (Server.assign_work c client_cores g))
    = Server.sent g ++ [(c, Protocol.NoWork)] /\
  Server.current_number (fst (Server.assign_work c client_cores g))
    = Server.current_number g /\
  Server.assigned_work (fst (Server.assign_work c client_cores g)) !! c = None.
Proof.
  intros Hf Hgt.
  destruct (assign_work_cases c client_cores g)
    as [(Hf' & _) | [(_ & _ & E) | (_ & Hle & _)]]; try congruence; try lia.
  rewrite E. cbn [fst Server.send_message Server.pop_work Server.sent
                  Server.current_number Server.assigned_work].
  repeat split. apply lookup_delete_eq.
Qed.

(** C1, as the code has it: take any sequence of [assign_work] calls, none
    with a negative core count, with no disconnect in between and nothing
    found.  Every call that finds the cursor at or below [END_NUMBER]
    issues the block
    [cursor, min(cursor + BLOCK_SIZE_PER_CORE * cores - 1, END_NUMBER)] for
    the cursor of that moment, and every other call issues nothing.  Each
    issued block starts right after the one before, the blocks are
    pairwise disjoint, and a number lies in exactly one of them when it is
    between the first cursor and the last, and in none otherwise; once the
    cursor has passed [END_NUMBER] they cover [first cursor, END_NUMBER]
    exactly once. *)
Theorem issued_blocks_partition
    (g : Server.globals) (calls : list (Server.conn * Z)) :
  Server.found g = false ->
  Forall (fun call => 0 <= snd call) calls ->
  let g' := fst (Server.assign_all calls g) in
  let blocks := map Server.range_of (snd (Server.assign_all calls g)) in
  (forall pre c k post, calls = pre ++ (c, k) :: post ->
     let g1 := fst (Server.assign_all pre g) in
     Server.found g1 = false /\
     snd (Server.assign_work c k g1)
       = (if Server.current_number g1 <=? Server.END_NUMBER
          then Some (Server.Work
                       (Server.current_number g1)
                       (Z.min (Server.current_number g1
                               + Server.BLOCK_SIZE_PER_CORE * k - 1)
                              Server.END_NUMBER))
          else None) /\
     snd (Server.assign_all calls g)
       = snd (Server.assign_all pre g)
         ++ match snd (Server.assign_work c k g1) with
            | Some w => [w]
            | None => []
            end
         ++ snd (Server.assign_all post (fst (Server.assign_work c k g1)))) /\
  Interval.tiles (Server.current_number g) blocks (Server.current_number g') /\
  Interval.pairwise_disjoint blocks /\
  (forall n, Interval.cover n blocks
             = if (Server.current_number g <=? n) && (n <? Server.current_number g')
               then 1%nat else 0%nat) /\
  (Server.END_NUMBER < Server.current_number g' ->
   forall n, Interval.cover n blocks
             = if (Server.current_number g <=? n) && (n <=? Server.END_NUMBER)
               then 1%nat else 0%nat).
Proof.
  intros Hf Hcalls g' blocks.
  destruct (assign_all_tiles calls g Hf Hcalls) as (Hf' & Ht & Hub & Hnil).
  fold g' in Hf', Ht, Hub. fold blocks in Ht.
  split.
  { intros pre c k post ->. intros g1.
    apply Forall_app in Hcalls as [Hpre Hrest].
    destruct (assign_all_tiles pre g Hf Hpre) as (Hf1 & _). fold g1 in Hf1.
    split; [exact Hf1 |]. split.
    - destruct (assign_work_cases c k g1)
        as [(Hx & _) | [(_ & Hgt & E) | (_ & Hle & E)]];
        [congruence | |]; rewrite E; cbn [snd].
      + destruct (Z.leb_spec (Server.current_number g1) Server.END_NUMBER);
          [lia | reflexivity].
      + destruct (Z.leb_spec (Server.current_number g1) Server.END_NUMBER);
          [reflexivity | lia].
    - rewrite assign_all_app. cbn [snd]. fold g1. f_equal.
      cbn [Server.assign_all].
      destruct (Server.assign_work c k g1) as [g2 r]. cbn [fst snd].
      destruct (Server.assign_all post g2) as [g3 ws]. cbn [snd].
      destruct r; reflexivity. }
  split; [exact Ht |].
  split; [exact (tiles_disjoint _ _ _ Ht) |].
  split; [exact (tiles_cover _ _ _ Ht) |].
  intros Hpast n.
  destruct (Z.le_gt_cases (Server.current_number g) (Server.END_NUMBER + 1))
    as [Hin | Hout].
  - specialize (Hub Hin). rewrite (tiles_cover _ _ _ Ht n).
    destruct (Z.leb_spec (Server.current_number g) n),
      (Z.ltb_spec n (Server.current_number g')),
      (Z.leb_spec n Server.END_NUMBER); simpl; try reflexivity; lia.
  - assert (Hempty : blocks = []) by (unfold blocks; rewrite Hnil by lia; reflexivity).
    rewrite Hempty.
    destruct (Z.leb_spec (Server.current_number g) n),
      (Z.leb_spec n Server.END_NUMBER); simpl; try reflexivity; lia.
Qed.

(* ===================================================================== *)
(** ** The coordinator under arbitrary traffic                            *)
(* ===================================================================== *)

Section Coordinator.
Import Protocol Server.

Lemma handle_found_locked_settled c number v g :
  settled v g -> settled v (fst (handle_found_locked c number g)).
Proof.
  intros [Hf Hv]. unfold handle_found_locked. cbn [pop_work found].
  rewrite Hf. split; assumption.
Qed.

Lemma handle_found_settled c number v g :
  settled v g -> settled v (fst (handle_found c number g)).
Proof.
  intros H. pose proof (handle_found_locked_settled c number v g H) as H'.
  unfold handle_found.
  destruct (handle_found_locked c number g) as [g1 raised].
  destruct raised; exact H'.
Qed.

Lemma assign_work_settled c k v g :
  settled v g -> settled v (fst (assign_work c k g)).
Proof.
  intros [Hf Hv]. destruct (assign_work_found c k g) as (E1 & E2 & _).
  split; congruence.
Qed.

Lemma finish_settled c v sys :
  settled v (shared sys) -> settled v (shared (finish c sys)).
Proof. intros H. exact H. Qed.

Lemma step_settled v sys e :
  settled v (shared sys) -> settled v (shared (step sys e)).
Proof.
  intros H. destruct e as [c | c m | c]; cbn [step];
    destruct (handlers sys !! c) as [k |]; try exact H.
  destruct m as [| | cores | | number |]; cbn [dispatch]; try exact H.
  - apply (assign_work_settled c k v _ H).
  - pose proof (handle_found_settled c number v _ H) as H'.
    destruct (handle_found c number (shared sys)) as [g1 raised].
    destruct raised; exact H'.
Qed.

Lemma run_settled v evs : forall sys,
  settled v (shared sys) -> settled v (shared (run sys evs)).
Proof.
  induction evs as [| e evs IH]; intros sys H; [exact H |].
  apply IH, step_settled, H.
Qed.

Lemma settled_outcome v g : settled v g -> GlobalOutcome g = FoundValue v.
Proof. intros [Hf Hv]. unfold GlobalOutcome. rewrite Hf, Hv. reflexivity. Qed.

(** the first report on an unset outcome *)
Lemma handle_found_first c v g :
  found g = false ->
  handle_found c (Some v) g =
    (notify_all_clients
       (Globals (current_number g) true v (clients g)
                (delete c (assigned_work g)) (sent g)), false).
Proof.
  intros Hf. unfold handle_found, handle_found_locked.
  cbn [pop_work found]. rewrite Hf. reflexivity.
Qed.

(** a report on a set outcome *)
Lemma handle_found_again c number g :
  found g = true ->
  handle_found c number g = (notify_all_clients (pop_work c g), false).
Proof.
  intros Hf. unfold handle_found, handle_found_locked.
  cbn [pop_work found]. rewrite Hf. reflexivity.
Qed.

End Coordinator.

(* ===================================================================== *)
(** ** The cursor under arbitrary traffic                                 *)
(* ===================================================================== *)

Section Cursor.
Import Protocol Server.

Lemma handle_found_cursor c number g :
  current_number (fst (handle_found c number g)) = current_number g.
Proof.
  unfold handle_found, handle_found_locked. cbn [pop_work found].
  destruct (found g); [reflexivity |]. destruct number; reflexivity.
Qed.

Lemma handle_found_sent c number g :
  exists stops, sent (fst (handle_found c number g)) = sent g ++ stops /\
                issued stops = [].
Proof.
  assert (Hstops : forall cs, issued (stop_all cs) = []).
  { induction cs as [| cl cs IH]; [reflexivity | exact IH]. }
  unfold handle_found, handle_found_locked. cbn [pop_work found].
  destruct (found g).
  - eexists. split; [reflexivity | apply Hstops].
  - destruct number.
    + eexists. split; [reflexivity | apply Hstops].
    + exists []. split; [symmetry; apply app_nil_r | reflexivity].
Qed.

Lemma issued_app l1 l2 : issued (l1 ++ l2) = issued l1 ++ issued l2.
Proof. unfold issued. apply omap_app. Qed.

(** what [assign_work] sends: one message, and if it is a block, the
    block starts at the cursor *)
Lemma assign_work_sent c k g :
  exists m, sent (fst (assign_work c k g)) = sent g ++ [(c, m)] /\
            Forall (fun r => current_number g <= fst r) (issued [(c, m)]).
Proof.
  destruct (assign_work_cases c k g) as [(_ & ->) | [(_ & _ & ->) | (_ & _ & ->)]];
    eexists; (split; [reflexivity |]); cbn; repeat constructor.
  simpl. lia.
Qed.

(** one event: handlers keep at least one core each, the cursor does not
    move back, stays within [END_NUMBER + 1], and every block sent
    starts at or after the cursor the event found *)
Lemma step_cursor sys e :
  cores_positive sys -> well_declared e ->
  cores_positive (step sys e) /\
  current_number (shared sys) <= current_number (shared (step sys e)) /\
  (current_number (shared sys) <= END_NUMBER + 1 ->
   current_number (shared (step sys e)) <= END_NUMBER + 1) /\
  exists new, sent (shared (step sys e)) = sent (shared sys) ++ new /\
              Forall (fun r => current_number (shared sys) <= fst r) (issued new).
Proof.
  intros Hpos Hok.
  assert (Hsame : cores_positive sys /\
            current_number (shared sys) <= current_number (shared sys) /\
            (current_number (shared sys) <= END_NUMBER + 1 ->
             current_number (shared sys) <= END_NUMBER + 1) /\
            exists new, sent (shared sys) = sent (shared sys) ++ new /\
              Forall (fun r => current_number (shared sys) <= fst r) (issued new)).
  { split; [exact Hpos |]. split; [lia |]. split; [tauto |].
    exists []. split; [symmetry; apply app_nil_r | constructor]. }
  assert (Hfinish : forall c sys',
            cores_positive sys' -> cores_positive (finish c sys')).
  { intros c sys' H c' k' Hl. cbn [finish handlers] in Hl.
    apply lookup_delete_Some in Hl as [_ Hl]. exact (H c' k' Hl). }
  destruct e as [c | c m | c]; cbn [step];
    destruct (handlers sys !! c) as [k |] eqn:Hc; try exact Hsame.
  - (* Accept *)
    split; [| exact (proj2 Hsame)].
    intros c' k' Hl. cbn [handlers] in Hl.
    apply lookup_insert_Some in Hl as [[_ <-] | [_ Hl]]; [lia | exact (Hpos c' k' Hl)].
  - (* Line *)
    destruct m as [| | cores | | number |]; cbn [dispatch]; try exact Hsame.
    + split; [apply Hfinish, Hpos | exact (proj2 Hsame)].
    + cbn [register_client]. split; [| exact (proj2 Hsame)].
      intros c' k' Hl. cbn [handlers] in Hl.
      apply lookup_insert_Some in Hl as [[_ <-] | [_ Hl]];
        [| exact (Hpos c' k' Hl)].
      destruct cores as [k0 |]; [exact Hok | lia].
    + cbn [shared handlers]. split; [exact Hpos |].
      pose proof (Hpos c k Hc) as Hk.
      pose proof (assign_work_cursor c k (shared sys) ltac:(lia)) as [Hmono Hub].
      split; [exact Hmono |]. split; [exact Hub |].
      destruct (assign_work_sent c k (shared sys)) as (m & E & Hm).
      exists [(c, m)]. split; assumption.
    + pose proof (handle_found_cursor c number (shared sys)) as Hcur.
      destruct (handle_found_sent c number (shared sys)) as (stops & E & Hnone).
      destruct (handle_found c number (shared sys)) as [g1 raised].
      cbn [fst] in Hcur, E.
      assert (Hrest : current_number (shared sys) <= current_number g1 /\
                (current_number (shared sys) <= END_NUMBER + 1 ->
                 current_number g1 <= END_NUMBER + 1) /\
                exists new, sent g1 = sent (shared sys) ++ new /\
                  Forall (fun r => current_number (shared sys) <= fst r)
                         (issued new)).
      { split; [lia |]. split; [lia |]. exists stops.
        split; [exact E | rewrite Hnone; constructor]. }
      destruct raised.
      * split; [apply Hfinish; exact Hpos | exact Hrest].
      * split; [exact Hpos | exact Hrest].
  - (* Closed *)
    split; [apply Hfinish, Hpos | exact (proj2 Hsame)].
Qed.

Lemma run_cursor evs : forall sys,
  cores_positive sys -> Forall well_declared evs ->
  cores_positive (run sys evs) /\
  current_number (shared sys) <= current_number (shared (run sys evs)) /\
  (current_number (shared sys) <= END_NUMBER + 1 ->
   current_number (shared (run sys evs)) <= END_NUMBER + 1) /\
  exists new, sent (shared (run sys evs)) = sent (shared sys) ++ new /\
              Forall (fun r => current_number (shared sys) <= fst r) (issued new).
Proof.
  induction evs as [| e evs IH]; intros sys Hpos Hok.
  - split; [exact Hpos |]. split; [simpl; lia |]. split; [simpl; tauto |].
    exists []. split; [symmetry; apply app_nil_r | constructor].
  - inversion Hok as [| ? ? He Hevs]; subst.
    destruct (step_cursor sys e Hpos He) as (Hpos1 & Hm1 & Hub1 & new1 & E1 & Hn1).
    destruct (IH (step sys e) Hpos1 Hevs) as (Hpos2 & Hm2 & Hub2 & new2 & E2 & Hn2).
    change (run sys (e :: evs)) with (run (step sys e) evs).
    split; [exact Hpos2 |]. split; [lia |].
    split; [intros H; apply Hub2, Hub1, H |].
    exists (new1 ++ new2). split.
    + rewrite E2, E1, app_assoc. reflexivity.
    + rewrite issued_app. apply Forall_app. split; [exact Hn1 |].
      eapply Forall_impl; [exact Hn2 |]. intros r Hr. simpl in *. lia.
Qed.

End Cursor.

Section Reachability.
Import Protocol Server.

Lemma startup_cores_positive : cores_positive startup.
Proof. intros c k H. cbn in H. rewrite lookup_empty in H. discriminate. Qed.

Lemma run_app sys evs1 evs2 : run sys (evs1 ++ evs2) = run (run sys evs1) evs2.
Proof. unfold run. apply fold_left_app. Qed.


End Reachability.

(** C1 as stated fails: a [register] line may carry any integer, and a
    call with a negative core count moves the cursor back.  After one
    block for 1 core, a call with -2 cores and two more calls with 1 core,
    the block [0, 199999] has been issued twice and a block of negative
    numbers once.  The last part is the same run as lines on two
    connections, the second of which registers with -2 cores. *)
Lemma negative_cores_reissue_block :
  let calls := [(1%nat, 1); (2%nat, -2); (1%nat, 1); (1%nat, 1)] in
  let blocks := map Server.range_of (snd (Server.assign_all calls Server.initial)) in
  Server.found (fst (Server.assign_all calls Server.initial)) = false /\
  blocks = [(0, 199999); (200000, -200001); (-200000, -1); (0, 199999)] /\
  Interval.cover 5 blocks = 2%nat /\
  ~ Interval.pairwise_disjoint blocks /\
  Server.issued
    (Server.sent
       (Server.shared
          (Server.run Server.startup
             [ Server.Accept 1%nat; Server.Accept 2%nat;
               Server.Line 2%nat (Protocol.Register (Some (-2)));
               Server.Line 1%nat Protocol.RequestWork;
               Server.Line 2%nat Protocol.RequestWork;
               Server.Line 1%nat Protocol.RequestWork;
               Server.Line 1%nat Protocol.RequestWork ])))
    = blocks.
Proof.
  cbv zeta. split; [vm_compute; reflexivity |].
  split; [vm_compute; reflexivity |].
  split; [vm_compute; reflexivity |].
  split; [| vm_compute; reflexivity].
  intros H.
  specialize (H 0%nat 3%nat (0, 199999) (0, 199999) ltac:(lia) eq_refl eq_refl).
  simpl in H. lia.
Qed.

(** C9: from the start of the coordinator, when every [register] line
    declares at least one core (or none, which counts as one), the cursor
    never moves back over any sequence of accepts, lines ([register],
    [request_work], [found], anything else) and disconnects, and it never
    exceeds [END_NUMBER + 1]. *)
Theorem cursor_monotone_and_bounded (evs1 evs2 : list Server.event) :
  Forall Server.well_declared (evs1 ++ evs2) ->
  Server.START_NUMBER
    <= Server.current_number (Server.shared (Server.run Server.startup evs1)) /\
  Server.current_number (Server.shared (Server.run Server.startup evs1))
    <= Server.current_number
         (Server.shared (Server.run Server.startup (evs1 ++ evs2))) /\
  Server.current_number (Server.shared (Server.run Server.startup (evs1 ++ evs2)))
    <= Server.END_NUMBER + 1.
Proof.
  intros Hok.
  apply Forall_app in Hok as [Hok1 Hok2].
  destruct (run_cursor evs1 Server.startup startup_cores_positive Hok1)
    as (Hpos1 & Hm1 & Hub1 & _).
  destruct (run_cursor evs2 _ Hpos1 Hok2) as (_ & Hm2 & Hub2 & _).
  rewrite run_app.
  split; [exact Hm1 |]. split; [exact Hm2 |].
  apply Hub2, Hub1. vm_compute. discriminate.
Qed.

(** C3: a [found] report with value [v] on an unset outcome sets the
    outcome to [v]; a second report with any other value leaves it at [v],
    and so does every later sequence of accepts, lines and disconnects:
    nothing unsets it. *)
Theorem found_is_final
    (g : Server.globals) (c : Server.conn) (v : Protocol.pyvalue)
    (hs : gmap Server.conn Z) (evs : list Server.event) :
  Server.found g = false ->
  let g1 := fst (Server.handle_found c (Some v) g) in
  Server.GlobalOutcome g = Server.Unset /\
  Server.GlobalOutcome g1 = Server.FoundValue v /\
  (forall c' v',
     Server.GlobalOutcome (fst (Server.handle_found c' (Some v') g1))
       = Server.FoundValue v) /\
  Server.GlobalOutcome (Server.shared (Server.run (Server.System g1 hs) evs))
    = Server.FoundValue v.
Proof.
  intros Hf g1.
  assert (Hset : Server.settled v g1).
  { unfold g1. rewrite handle_found_first by exact Hf. split; reflexivity. }
  split; [unfold Server.GlobalOutcome; rewrite Hf; reflexivity |].
  split; [apply settled_outcome, Hset |].
  split.
  - intros c' v'. apply settled_outcome, handle_found_settled, Hset.
  - apply settled_outcome. apply (run_settled v evs (Server.System g1 hs) Hset).
Qed.

(** C8, as the code has it: the outcome keeps the value of the first
    report and a later report does not change it; but every report that
    carries a value, the first and each duplicate alike, sends [stop] to
    every registered client, so two reports make two broadcasts. *)
Theorem every_found_report_broadcasts
    (g : Server.globals) (c1 c2 : Server.conn) (v1 v2 : Protocol.pyvalue) :
  Server.found g = false ->
  let g1 := fst (Server.handle_found c1 (Some v1) g) in
  let g2 := fst (Server.handle_found c2 (Some v2) g1) in
  Server.GlobalOutcome g1 = Server.FoundValue v1 /\
  Server.GlobalOutcome g2 = Server.FoundValue v1 /\
  Server.clients g2 = Server.clients g /\
  Server.sent g1 = Server.sent g ++ Server.stop_all (Server.clients g) /\
  Server.sent g2 = Server.sent g ++ Server.stop_all (Server.clients g)
                                 ++ Server.stop_all (Server.clients g).
Proof.
  intros Hf g1 g2. unfold g2, g1.
  rewrite handle_found_first by exact Hf. cbn [fst].
  rewrite handle_found_again by reflexivity. cbn [fst].
  unfold Server.GlobalOutcome. cbn.
  repeat split. rewrite <- app_assoc. reflexivity.
Qed.

(** C8 as stated fails: two clients are registered and both report the
    same value; the outcome holds it, yet [stop] goes out to every client
    twice, not once. *)
Lemma duplicate_found_broadcasts_twice :
  let v := Protocol.PyStr "0000000042" in
  let sys :=
    Server.run Server.startup
      [ Server.Accept 1%nat; Server.Accept 2%nat;
        Server.Line 1%nat (Protocol.Register (Some 4));
        Server.Line 2%nat (Protocol.Register (Some 4));
        Server.Line 1%nat (Protocol.FoundMsg (Some v));
        Server.Line 2%nat (Protocol.FoundMsg (Some v)) ] in
  Server.GlobalOutcome (Server.shared sys) = Server.FoundValue v /\
  Server.sent (Server.shared sys)
    = [ (1%nat, Protocol.Stop); (2%nat, Protocol.Stop);
        (1%nat, Protocol.Stop); (2%nat, Protocol.Stop) ] /\
  ~ (Server.sent (Server.shared sys)
       = Server.stop_all (Server.clients (Server.shared sys))).
Proof.
  cbv zeta. split; [vm_compute; reflexivity |].
  split; [vm_compute; reflexivity |].
  vm_compute. discriminate.
Qed.


(** C10: what a worker puts on the queue for a hit at candidate [n] is the
    fixed-width string of [n]; [process_work] sends that string in the
    [found] message, and the coordinator stores it as it comes: the
    outcome holds the string, not the integer.  Inside the keyspace the
    string is ten decimal digits that read back as [n]. *)
Theorem reported_value_is_fixed_width_string
    (start end_ : Z) (target_hash v : string)
    (c : Server.conn) (g : Server.globals) :
  Client.worker start end_ target_hash = Some v ->
  Server.found g = false ->
  exists n,
    start <= n <= end_ /\
    Client.hash_result (Fmt.format_010d n) = target_hash /\
    v = Fmt.format_010d n /\
    Client.found_message (Some v)
      = Some (Protocol.FoundMsg (Some (Protocol.PyStr (Fmt.format_010d n)))) /\
    Server.GlobalOutcome (fst (Server.handle_found c (Some (Protocol.PyStr v)) g))
      = Server.FoundValue (Protocol.PyStr (Fmt.format_010d n)) /\
    Server.found_number (fst (Server.handle_found c (Some (Protocol.PyStr v)) g))
      <> Protocol.PyInt n /\
    (Server.START_NUMBER <= n <= Server.END_NUMBER ->
     String.length v = 10%nat /\ Fmt.all_digits v = true /\
     Fmt.decimal_value v = n) /\
    Fmt.format_010d 42 = "0000000042"%string.
Proof.
  intros Hw Hf.
  destruct (scan_range target_hash (Z.to_nat (end_ + 1 - start)) start (end_ + 1)
              eq_refl) as [Hsome _].
  apply Hsome in Hw as (n & Hn & Hh & _ & ->).
  exists n.
  split; [lia |]. split; [exact Hh |]. split; [reflexivity |].
  split.
  { pose proof (format_010d_nonempty n) as Hne.
    destruct (Fmt.format_010d n); [congruence | reflexivity]. }
  rewrite handle_found_first by exact Hf. cbn [fst].
  split; [reflexivity |]. split; [discriminate |].
  split; [| reflexivity].
  intros Hkey. apply format_010d_keyspace.
  change Server.START_NUMBER with 0 in Hkey.
  change Server.END_NUMBER with 9999999999 in Hkey. exact Hkey.
Qed.

(* ===================================================================== *)
(** ** The theorems at concrete runs                                      *)
(* ===================================================================== *)

(** three calls from the initial state: 4 cores, 1 core, 4 cores *)
Lemma issued_blocks_partition_witness :
  Server.found Server.initial = false /\
  Forall (fun call : Server.conn * Z => 0 <= snd call)
         [(1%nat, 4); (2%nat, 1); (1%nat, 4)] /\
  Interval.tiles 0 [(0, 799999); (800000, 999999); (1000000, 1799999)] 1800000.
Proof.
  assert (H : Forall (fun call : Server.conn * Z => 0 <= snd call)
                     [(1%nat, 4); (2%nat, 1); (1%nat, 4)])
    by (repeat constructor; simpl; lia).
  split; [reflexivity |]. split; [exact H |].
  exact (proj1 (proj2 (issued_blocks_partition Server.initial _ eq_refl H))).
Defined.

(** a state in which 42 has been found, and a request after it *)
Lemma assign_work_stop_when_found_witness :
  let g := fst (Server.handle_found 1%nat (Some (Protocol.PyInt 42)) Server.initial) in
  Server.found g = true /\
  snd (Server.assign_work 2%nat 4 g) = None /\
  Server.sent (fst (Server.assign_work 2%nat 4 g)) = [(2%nat, Protocol.Stop)].
Proof.
  cbv zeta. split; [reflexivity |].
  destruct (assign_work_stop_when_found
              (fst (Server.handle_found 1%nat (Some (Protocol.PyInt 42)) Server.initial))
              2%nat 4 eq_refl) as (E & Hsent & _).
  split; [rewrite E; reflexivity | exact Hsent].
Defined.

(** the cursor one past [END_NUMBER] *)
Lemma assign_work_no_work_when_exhausted_witness :
  let g := Server.Globals (Server.END_NUMBER + 1) false Protocol.PyNone [] ∅ [] in
  Server.found g = false /\
  Server.current_number g > Server.END_NUMBER /\
  snd (Server.assign_work 3%nat 2 g) = None /\
  Server.sent (fst (Server.assign_work 3%nat 2 g)) = [(3%nat, Protocol.NoWork)].
Proof.
  cbv zeta. split; [reflexivity |]. split; [reflexivity |].
  destruct (assign_work_no_work_when_exhausted
              (Server.Globals (Server.END_NUMBER + 1) false Protocol.PyNone [] ∅ [])
              3%nat 2 eq_refl eq_refl) as (E & Hsent & _).
  split; [rewrite E; reflexivity | exact Hsent].
Defined.

(** ten numbers on four processes: the last takes the remainder *)
Lemma sub_ranges_partition_witness :
  0 <= 9 /\ 1 <= 4 /\
  exists rs front,
    Client.sub_ranges 0 9 4 = Some rs /\
    Z.of_nat (List.length rs) = 4 /\
    Interval.tiles 0 rs (9 + 1) /\
    Interval.pairwise_disjoint rs /\
    (forall n, Interval.cover n rs =
               if (0 <=? n) && (n <=? 9) then 1%nat else 0%nat) /\
    rs = front ++ [(0 + (4 - 1) * ((9 - 0 + 1) / 4), 9)] /\
    Forall (fun r => snd r - fst r + 1 = (9 - 0 + 1) / 4) front /\
    Client.sub_ranges 0 99 4 = Some [(0, 24); (25, 49); (50, 74); (75, 99)].
Proof.
  split; [lia |]. split; [lia |].
  apply (sub_ranges_partition 0 9 4); lia.
Defined.

(** the search of block [0, 99] for the fingerprint of 42, and for the
    same fingerprint in lower case *)
Lemma worker_reports_first_match_witness :
  Client.worker 0 99 "2FB362FBF84BEDB41530AF52286EA596"
    = Some "0000000042"%string /\
  Client.worker 0 99 "2fb362fbf84bedb41530af52286ea596" = None.
Proof.
  pose proof (worker_reports_first_match 0 99 EmptyString)
    as (_ & _ & _ & _ & _ & Hfound & _ & Hlower & _).
  split; [exact Hfound | exact Hlower].
Defined.

(** two clients, a few requests, then a disconnect *)
Lemma cursor_monotone_and_bounded_witness :
  let evs1 := [ Server.Accept 1%nat;
                Server.Line 1%nat (Protocol.Register (Some 4));
                Server.Line 1%nat Protocol.RequestWork ] in
  let evs2 := [ Server.Accept 2%nat;
                Server.Line 2%nat Protocol.RequestWork;
                Server.Closed 1%nat ] in
  Forall Server.well_declared (evs1 ++ evs2) /\
  Server.START_NUMBER
    <= Server.current_number (Server.shared (Server.run Server.startup evs1)) /\
  Server.current_number (Server.shared (Server.run Server.startup evs1))
    <= Server.current_number (Server.shared (Server.run Server.startup (evs1 ++ evs2))) /\
  Server.current_number (Server.shared (Server.run Server.startup (evs1 ++ evs2)))
    <= Server.END_NUMBER + 1.
Proof.
  cbv zeta.
  assert (Hok : Forall Server.well_declared
            ([ Server.Accept 1%nat;
               Server.Line 1%nat (Protocol.Register (Some 4));
               Server.Line 1%nat Protocol.RequestWork ]
             ++ [ Server.Accept 2%nat;
                  Server.Line 2%nat Protocol.RequestWork;
                  Server.Closed 1%nat ]))
    by (repeat constructor; simpl; lia).
  split; [exact Hok |].
  exact (cursor_monotone_and_bounded _ _ Hok).
Defined.

(** a report of 42, then one of 43, then more traffic *)
Lemma found_is_final_witness :
  Server.found Server.initial = false /\
  Server.GlobalOutcome
    (Server.shared
       (Server.run
          (Server.System
             (fst (Server.handle_found 1%nat (Some (Protocol.PyInt 42)) Server.initial))
             ∅)
          [ Server.Accept 2%nat;
            Server.Line 2%nat (Protocol.FoundMsg (Some (Protocol.PyInt 43)));
            Server.Line 2%nat Protocol.RequestWork;
            Server.Closed 2%nat ]))
    = Server.FoundValue (Protocol.PyInt 42).
Proof.
  split; [reflexivity |].
  exact (proj2 (proj2 (proj2
           (found_is_final Server.initial 1%nat (Protocol.PyInt 42) ∅ _ eq_refl)))).
Defined.

(** two reports with different values on a coordinator with one client *)
Lemma every_found_report_broadcasts_witness :
  let g := fst (Server.register_client 5%nat (Some 2) Server.initial) in
  Server.found g = false /\
  Server.GlobalOutcome
    (fst (Server.handle_found 6%nat (Some (Protocol.PyInt 43))
            (fst (Server.handle_found 5%nat (Some (Protocol.PyInt 42)) g))))
    = Server.FoundValue (Protocol.PyInt 42) /\
  Server.sent
    (fst (Server.handle_found 6%nat (Some (Protocol.PyInt 43))
            (fst (Server.handle_found 5%nat (Some (Protocol.PyInt 42)) g))))
    = [(5%nat, Protocol.Stop); (5%nat, Protocol.Stop)].
Proof.
  cbv zeta. split; [reflexivity |].
  destruct (every_found_report_broadcasts
              (fst (Server.register_client 5%nat (Some 2) Server.initial))
              5%nat 6%nat (Protocol.PyInt 42) (Protocol.PyInt 43) eq_refl)
    as (_ & Hout & _ & _ & Hsent).
  split; [exact Hout | exact Hsent].
Defined.


(** the worker that owns [25, 49] finds 42 and the coordinator stores
    what it is sent *)
Lemma reported_value_is_fixed_width_string_witness :
  Client.worker 25 49 "2FB362FBF84BEDB41530AF52286EA596" = Some "0000000042"%string /\
  Server.found Server.initial = false /\
  Server.GlobalOutcome
    (fst (Server.handle_found 1%nat (Some (Protocol.PyStr "0000000042")) Server.initial))
    = Server.FoundValue (Protocol.PyStr "0000000042").
Proof.
  assert (Hw : Client.worker 25 49 "2FB362FBF84BEDB41530AF52286EA596"
               = Some "0000000042"%string) by (vm_compute; reflexivity).
  split; [exact Hw |]. split; [reflexivity |].
  destruct (reported_value_is_fixed_width_string
              25 49 "2FB362FBF84BEDB41530AF52286EA596" "0000000042"
              1%nat Server.initial Hw eq_refl)
    as (n & _ & _ & Hv & _ & Hout & _).
  rewrite Hout, <- Hv. reflexivity.
Defined.

(* ===================================================================== *)
(** ** What one event does to the shared state                            *)
(* ===================================================================== *)

Section Events.
Import Protocol Server.

Lemma issued_stop_all cs : issued (stop_all cs) = [].
Proof. induction cs as [| cl cs IH]; [reflexivity | exact IH]. Qed.

Lemma handle_found_assigned c number g :
  assigned_work (fst (handle_found c number g)) = delete c (assigned_work g).
Proof.
  unfold handle_found, handle_found_locked. cbn [pop_work found].
  destruct (found g); [reflexivity |]. destruct number; reflexivity.
Qed.

Lemma handle_found_clients c number g :
  clients (fst (handle_found c number g)) = clients g.
Proof.
  unfold handle_found, handle_found_locked. cbn [pop_work found].
  destruct (found g); [reflexivity |]. destruct number; reflexivity.
Qed.

(** an event either leaves the cursor alone, adds no block to
    [assigned_work] and sends no [work] message, or it is a
    [request_work] line served with a block *)
Lemma step_effect sys e :
  (current_number (shared (step sys e)) = current_number (shared sys) /\
   (forall c w, assigned_work (shared (step sys e)) !! c = Some w ->
                assigned_work (shared sys) !! c = Some w) /\
   exists new, sent (shared (step sys e)) = sent (shared sys) ++ new /\
               issued new = []) \/
  (exists c k,
     e = Line c RequestWork /\ handlers sys !! c = Some k /\
     found (shared sys) = false /\
     current_number (shared sys) <= END_NUMBER /\
     let cur := current_number (shared sys) in
     let last := Z.min (cur + BLOCK_SIZE_PER_CORE * k - 1) END_NUMBER in
     step sys e =
       System (Globals (last + 1) false (found_number (shared sys))
                       (clients (shared sys))
                       (<[c := Work cur last]> (delete c (assigned_work (shared sys))))
                       (sent (shared sys) ++ [(c, WorkMsg cur last TARGET_HASH)]))
              (handlers sys)).
Proof.
  assert (Hsame : current_number (shared sys) = current_number (shared sys) /\
            (forall c w, assigned_work (shared sys) !! c = Some w ->
                         assigned_work (shared sys) !! c = Some w) /\
            exists new, sent (shared sys) = sent (shared sys) ++ new /\
                        issued new = []).
  { split; [reflexivity |]. split; [intros c w H; exact H |].
    exists []. split; [symmetry; apply app_nil_r | reflexivity]. }
  assert (Hdel : forall c c' w, delete c (assigned_work (shared sys)) !! c' = Some w ->
                                assigned_work (shared sys) !! c' = Some w).
  { intros c c' w H. apply lookup_delete_Some in H as [_ H]. exact H. }
  assert (Hfin : forall c,
            current_number (shared (finish c sys)) = current_number (shared sys) /\
            (forall c' w, assigned_work (shared (finish c sys)) !! c' = Some w ->
                          assigned_work (shared sys) !! c' = Some w) /\
            exists new, sent (shared (finish c sys)) = sent (shared sys) ++ new /\
                        issued new = []).
  { intros c. split; [reflexivity |]. split; [apply Hdel |].
    exists []. split; [symmetry; apply app_nil_r | reflexivity]. }
  destruct e as [c | c m | c]; cbn [step];
    destruct (handlers sys !! c) as [k |] eqn:Hc; try (left; exact Hsame).
  - destruct m as [| | cores | | number |]; cbn [dispatch];
      try (left; exact Hsame).
    + left. apply Hfin.
    + destruct (assign_work_cases c k (shared sys))
        as [(Hf & E) | [(Hf & Hgt & E) | (Hf & Hle & E)]].
      * left. rewrite E. cbn [fst shared send_message pop_work current_number
                               assigned_work sent].
        split; [reflexivity |]. split; [apply Hdel |].
        exists [(c, Stop)]. split; reflexivity.
      * left. rewrite E. cbn [fst shared send_message pop_work current_number
                               assigned_work sent].
        split; [reflexivity |]. split; [apply Hdel |].
        exists [(c, NoWork)]. split; reflexivity.
      * right. exists c, k. split; [reflexivity |]. split; [exact Hc |].
        split; [exact Hf |]. split; [exact Hle |].
        cbv zeta. rewrite E. cbn [fst send_message current_number found
                                   found_number clients assigned_work sent].
        rewrite Hf. reflexivity.
    + left.
      pose proof (handle_found_cursor c number (shared sys)) as Hcur.
      pose proof (handle_found_assigned c number (shared sys)) as Hasg.
      destruct (handle_found_sent c number (shared sys)) as (stops & E & Hnone).
      destruct (handle_found c number (shared sys)) as [g1 raised].
      cbn [fst] in Hcur, Hasg, E.
      destruct raised; cbn [finish shared cleanup_client pop_work
                              current_number assigned_work sent].
      * split; [exact Hcur |]. split.
        -- intros c' w H. apply lookup_delete_Some in H as [_ H].
           rewrite Hasg in H. apply (Hdel c), H.
        -- exists stops. split; assumption.
      * split; [exact Hcur |]. split.
        -- intros c' w H. rewrite Hasg in H. apply (Hdel c), H.
        -- exists stops. split; assumption.
  - left. apply Hfin.
Qed.

End Events.

(* ===================================================================== *)
(** ** Invariants of the coordinator                                      *)
(* ===================================================================== *)

Section Invariants.
Import Protocol Server.

Lemma step_assignments_sound sys e :
  cores_positive sys ->
  START_NUMBER <= current_number (shared sys) ->
  assignments_sound (shared sys) ->
  assignments_sound (shared (step sys e)).
Proof.
  intros Hpos Hlo [Hbehind Hdisj].
  destruct (step_effect sys e)
    as [(Hcur & Hshrink & _) | (c & k & -> & Hc & Hf & Hle & E)].
  - split.
    + intros c w H. specialize (Hbehind c w (Hshrink c w H)).
      unfold behind_cursor in *. rewrite Hcur. exact Hbehind.
    + intros c1 c2 w1 w2 Hne H1 H2.
      exact (Hdisj c1 c2 w1 w2 Hne (Hshrink _ _ H1) (Hshrink _ _ H2)).
  - cbv zeta in E. rewrite E. clear E.
    pose proof (Hpos c k Hc) as Hk.
    set (cur := current_number (shared sys)) in *.
    set (last := Z.min (cur + BLOCK_SIZE_PER_CORE * k - 1) END_NUMBER).
    assert (Hlast : cur <= last <= END_NUMBER)
      by (unfold last, BLOCK_SIZE_PER_CORE; lia).
    assert (Hold : forall c' w, c <> c' ->
              delete c (assigned_work (shared sys)) !! c' = Some w ->
              behind_cursor (shared sys) w).
    { intros c' w _ H. apply lookup_delete_Some in H as [_ H].
      exact (Hbehind c' w H). }
    unfold assignments_sound. cbn [shared assigned_work]. split.
    + intros c' w H. unfold behind_cursor. cbn [current_number].
      apply lookup_insert_Some in H as [[_ <-] | [Hne H]].
      * simpl. lia.
      * specialize (Hold c' w Hne H). unfold behind_cursor in Hold.
        fold cur in Hold. lia.
    + intros c1 c2 w1 w2 Hne H1 H2.
      apply lookup_insert_Some in H1 as [[E1 <-] | [Hne1 H1]];
        apply lookup_insert_Some in H2 as [[E2 <-] | [Hne2 H2]].
      * congruence.
      * specialize (Hold c2 w2 Hne2 H2). unfold behind_cursor in Hold.
        fold cur in Hold. simpl. lia.
      * specialize (Hold c1 w1 Hne1 H1). unfold behind_cursor in Hold.
        fold cur in Hold. simpl. lia.
      * apply lookup_delete_Some in H1 as [_ H1].
        apply lookup_delete_Some in H2 as [_ H2].
        exact (Hdisj c1 c2 w1 w2 Hne H1 H2).
Qed.

Lemma run_assignments_sound evs : forall sys,
  cores_positive sys -> Forall well_declared evs ->
  START_NUMBER <= current_number (shared sys) ->
  assignments_sound (shared sys) ->
  assignments_sound (shared (run sys evs)).
Proof.
  induction evs as [| e evs IH]; intros sys Hpos Hok Hlo Hinv; [exact Hinv |].
  inversion Hok as [| ? ? He Hevs]; subst.
  destruct (step_cursor sys e Hpos He) as (Hpos1 & Hm1 & _).
  change (run sys (e :: evs)) with (run (step sys e) evs).
  apply IH; [exact Hpos1 | exact Hevs | lia |].
  apply step_assignments_sound; assumption.
Qed.

Lemma filter_keeps_Forall {A} (P : A -> Prop) (Q : A -> Prop)
    `{!forall x, Decision (Q x)} (l : list A) :
  Forall P l -> Forall P (filter Q l).
Proof.
  intros Hl. apply Forall_forall. intros x Hx.
  apply list_elem_of_filter in Hx as [_ Hx].
  rewrite Forall_forall in Hl. exact (Hl x Hx).
Qed.

Lemma finish_no_leftovers c sys :
  no_leftovers sys -> no_leftovers (finish c sys).
Proof.
  intros Hinv c' Hc'. cbn [finish handlers shared] in *.
  unfold cleanup_client. cbn [pop_work assigned_work clients].
  apply lookup_delete_None in Hc' as [<- | Hc'].
  - split; [apply lookup_delete_eq |].
    apply Forall_forall. intros cl Hcl.
    apply list_elem_of_filter in Hcl as [Hcl _]. exact Hcl.
  - destruct (Hinv c' Hc') as [Hw Hcl]. split.
    + apply lookup_delete_None. right. exact Hw.
    + apply filter_keeps_Forall, Hcl.
Qed.

Lemma step_no_leftovers sys e : no_leftovers sys -> no_leftovers (step sys e).
Proof.
  intros Hinv.
  destruct e as [c | c m | c]; cbn [step];
    destruct (handlers sys !! c) as [k |] eqn:Hc; try exact Hinv.
  - (* Accept *)
    intros c' Hc'. cbn [handlers shared] in *.
    apply lookup_insert_None in Hc' as [Hc' _]. exact (Hinv c' Hc').
  - destruct m as [| | cores | | number |]; cbn [dispatch]; try exact Hinv.
    + apply finish_no_leftovers, Hinv.
    + (* Register *)
      intros c' Hc'. cbn [register_client handlers shared assigned_work clients] in *.
      apply lookup_insert_None in Hc' as [Hc' Hne].
      destruct (Hinv c' Hc') as [Hw Hcl]. split; [exact Hw |].
      apply Forall_app. split; [exact Hcl |].
      constructor; [exact Hne | constructor].
    + (* RequestWork *)
      intros c' Hc'. cbn [handlers shared] in *.
      assert (Hne : c <> c') by congruence.
      destruct (Hinv c' Hc') as [Hw Hcl].
      destruct (assign_work_cases c k (shared sys))
        as [(_ & ->) | [(_ & _ & ->) | (_ & _ & ->)]];
        cbn [fst send_message pop_work assigned_work clients];
        (split; [| exact Hcl]).
      * apply lookup_delete_None. right. exact Hw.
      * apply lookup_delete_None. right. exact Hw.
      * apply lookup_insert_None. split; [| exact Hne].
        apply lookup_delete_None. right. exact Hw.
    + (* found *)
      assert (Hmid : no_leftovers
                (System (fst (handle_found c number (shared sys))) (handlers sys))).
      { intros c' Hc'. cbn [handlers shared] in *.
        destruct (Hinv c' Hc') as [Hw Hcl].
        rewrite handle_found_assigned, handle_found_clients.
        split; [apply lookup_delete_None; right; exact Hw | exact Hcl]. }
      destruct (handle_found c number (shared sys)) as [g1 raised].
      cbn [fst] in Hmid.
      destruct raised; [apply finish_no_leftovers, Hmid | exact Hmid].
  - apply finish_no_leftovers, Hinv.
Qed.

End Invariants.

(* ===================================================================== *)
(** ** Lines on the socket                                                *)
(* ===================================================================== *)

Section Lines.
Import Wire.





































End Lines.



(* ===================================================================== *)
(** ** The pool of worker processes                                       *)
(* ===================================================================== *)

Section Pool.
Import Interval Client.

Lemma cover_positive n rs :
  (0 < cover n rs)%nat -> exists r, In r rs /\ inside n r = true.
Proof.
  induction rs as [| r rs IH]; intros H.
  - unfold cover in H. simpl in H. lia.
  - rewrite cover_cons in H. destruct (inside n r) eqn:E.
    + exists r. split; [left; reflexivity | exact E].
    + destruct (IH ltac:(simpl in H; lia)) as (r' & Hin & Hr').
      exists r'. split; [right; exact Hin | exact Hr'].
Qed.

Lemma worker_some start end_ target_hash v :
  worker start end_ target_hash = Some v <->
  exists n, start <= n <= end_ /\ hits target_hash n /\
            (forall m, start <= m < n -> ~ hits target_hash m) /\
            v = Fmt.format_010d n.
Proof.
  destruct (scan_range target_hash (Z.to_nat (end_ + 1 - start)) start (end_ + 1)
              eq_refl) as [Hsome _].
  unfold worker. rewrite Hsome. split.
  - intros (n & Hn & Hh & Hfirst & ->). exists n.
    split; [lia |]. split; [exact Hh |]. split; [exact Hfirst | reflexivity].
  - intros (n & Hn & Hh & Hfirst & ->). exists n.
    split; [lia |]. split; [exact Hh |]. split; [exact Hfirst | reflexivity].
Qed.

Lemma worker_none start end_ target_hash :
  worker start end_ target_hash = None <->
  forall n, start <= n <= end_ -> ~ hits target_hash n.
Proof.
  destruct (scan_range target_hash (Z.to_nat (end_ + 1 - start)) start (end_ + 1)
              eq_refl) as [_ Hnone].
  unfold worker. rewrite Hnone. split.
  - intros Hall n Hn. apply Hall. lia.
  - intros Hall n Hn. apply Hall. lia.
Qed.

(** the sub-ranges of a non-empty block on at least one process *)
Lemma sub_ranges_tile start end_ cores :
  start <= end_ -> 1 <= cores ->
  exists rs, sub_ranges start end_ cores = Some rs /\
             Z.of_nat (List.length rs) = cores /\
             tiles start rs (end_ + 1).
Proof.
  intros Hse Hc.
  pose proof (bounds_tile start end_ cores Hse Hc (Z.to_nat cores) 0%nat) as Ht.
  specialize (Ht ltac:(lia) ltac:(lia)).
  change (Z.of_nat 0) with 0 in Ht. rewrite Z.mul_0_l, Z.add_0_r in Ht.
  eexists. split; [apply sub_ranges_eq; lia |].
  split; [rewrite !List.length_map, List.length_seq; lia | exact Ht].
Qed.

End Pool.

(** X13: the search of a block by the pool is the search of the block.
    For a non-empty block and at least one process, every value a process
    puts on the queue is the fixed-width form of a hit inside the block;
    if the block holds a hit, some process puts a value; and the smallest
    hit of the block is always among the values put. *)
Theorem pool_finds_what_the_block_holds
    (start end_ cores : Z) (target_hash : string) :
  start <= end_ -> 1 <= cores ->
  exists puts,
    Client.queue_puts start end_ cores target_hash = Some puts /\
    Z.of_nat (List.length puts) = cores /\
    (forall v, In (Some v) puts ->
       exists n, start <= n <= end_ /\ Client.hits target_hash n /\
                 v = Fmt.format_010d n) /\
    (forall n, start <= n <= end_ -> Client.hits target_hash n ->
       exists v, In (Some v) puts) /\
    (forall n, start <= n <= end_ -> Client.hits target_hash n ->
       (forall m, start <= m < n -> ~ Client.hits target_hash m) ->
       In (Some (Fmt.format_010d n)) puts).
Proof.
  intros Hse Hc.
  destruct (sub_ranges_tile start end_ cores Hse Hc) as (rs & Ers & Hlen & Ht).
  unfold Client.queue_puts. rewrite Ers.
  eexists. split; [reflexivity |].
  split; [rewrite List.length_map; exact Hlen |].
  assert (Hin : forall n, start <= n <= end_ ->
            exists r, In r rs /\ fst r <= n <= snd r).
  { intros n Hn.
    destruct (cover_positive n rs) as (r & Hr & Hins).
    - rewrite (tiles_cover _ _ _ Ht).
      destruct (Z.leb_spec start n), (Z.ltb_spec n (end_ + 1)); simpl; lia.
    - exists r. split; [exact Hr |]. unfold Interval.inside in Hins.
      apply andb_true_iff in Hins as [H1 H2]. lia. }
  assert (Hbounds : forall r, In r rs -> start <= fst r /\ snd r <= end_).
  { intros r Hr. apply list_elem_of_In, list_elem_of_lookup in Hr as [j Hj].
    destruct (tiles_bounds _ _ _ Ht j r Hj). lia. }
  split.
  { intros v Hv. apply in_map_iff in Hv as (r & Hw & Hr).
    apply worker_some in Hw as (n & Hn & Hh & _ & ->).
    destruct (Hbounds r Hr). exists n. split; [lia |]. split; [exact Hh | reflexivity]. }
  split.
  { intros n Hn Hh. destruct (Hin n Hn) as (r & Hr & Hnr).
    destruct (Client.worker (fst r) (snd r) target_hash) as [v |] eqn:Ew.
    - exists v. apply in_map_iff. exists r. split; [exact Ew | exact Hr].
    - exfalso. exact (proj1 (worker_none _ _ _) Ew n Hnr Hh). }
  intros n Hn Hh Hfirst. destruct (Hin n Hn) as (r & Hr & Hnr).
  apply in_map_iff. exists r. split; [| exact Hr].
  apply worker_some. exists n. split; [exact Hnr |]. split; [exact Hh |].
  split; [| reflexivity].
  intros m Hm. apply Hfirst. destruct (Hbounds r Hr). lia.
Qed.

(** X14: a core count that is not positive searches nothing.  With a
    negative count no process is started, so nothing is put on the queue
    even when the block holds a hit; with [cores = 0] the split divides
    by zero. *)
Theorem pool_without_processes
    (start end_ cores : Z) (target_hash : string) :
  cores < 0 ->
  Client.sub_ranges start end_ cores = Some [] /\
  Client.queue_puts start end_ cores target_hash = Some [] /\
  Client.sub_ranges start end_ 0 = None /\
  Client.queue_puts start end_ 0 target_hash = None.
Proof.
  intros Hneg. unfold Client.queue_puts, Client.sub_ranges.
  replace (cores =? 0) with false by (symmetry; apply Z.eqb_neq; lia).
  rewrite py_range_nil by lia. repeat split.
Qed.

(** X15: a block with fewer numbers than processes is not shared out.
    [total // cores] is 0, so every process but the last gets the empty
    range [start, start - 1] and the last one scans the whole block. *)
Theorem small_block_goes_to_last_process (start end_ cores : Z) :
  start <= end_ -> end_ - start + 1 < cores ->
  Client.sub_ranges start end_ cores
    = Some (repeat (start, start - 1) (Z.to_nat (cores - 1)) ++ [(start, end_)]).
Proof.
  intros Hse Hsmall.
  rewrite (sub_ranges_eq start end_ cores) by lia.
  rewrite Z.div_small by lia.
  replace (Z.to_nat cores) with (S (Z.to_nat (cores - 1))) by lia.
  rewrite seq_S, !List.map_app. cbn [map Nat.add].
  f_equal. f_equal.
  - assert (Hfront : forall m a, (a + m <= Z.to_nat (cores - 1))%nat ->
              map (Client.process_bounds start end_ cores 0)
                  (map (fun i => 0 + Z.of_nat i) (seq a m))
              = repeat (start, start - 1) m).
    { induction m as [| m IH]; intros a Ha; [reflexivity |].
      cbn [seq map repeat]. rewrite IH by lia. f_equal.
      unfold Client.process_bounds.
      replace (0 + Z.of_nat a <? cores - 1) with true
        by (symmetry; apply Z.ltb_lt; lia).
      f_equal; lia. }
    apply Hfront. lia.
  - unfold Client.process_bounds.
    replace (0 + Z.of_nat (Z.to_nat (cores - 1)) <? cores - 1) with false
      by (symmetry; apply Z.ltb_ge; lia).
    f_equal. f_equal. lia.
Qed.

(* ===================================================================== *)
(** ** The shape of a digest and of a formatted candidate                 *)
(* ===================================================================== *)

Section Shapes.
Import Hashlib Client.

Lemma hex_digit_upper d :
  0 <= d < 16 -> is_upper_hex (upper_char (hex_digit d)) = true.
Proof.
  intros H.
  assert (Hd : d = 0 \/ d = 1 \/ d = 2 \/ d = 3 \/ d = 4 \/ d = 5 \/ d = 6 \/
               d = 7 \/ d = 8 \/ d = 9 \/ d = 10 \/ d = 11 \/ d = 12 \/
               d = 13 \/ d = 14 \/ d = 15) by lia.
  repeat (destruct Hd as [-> | Hd]; [reflexivity |]). subst. reflexivity.
Qed.

Lemma hex_of_shape bs :
  Forall (fun b => 0 <= b < 256) bs ->
  String.length (upper (hex_of bs)) = (2 * List.length bs)%nat /\
  all_upper_hex (upper (hex_of bs)) = true.
Proof.
  induction 1 as [| b bs Hb _ [IHlen IHhex]]; [split; reflexivity |].
  cbn [hex_of upper String.length all_upper_hex List.length].
  rewrite IHlen, IHhex.
  rewrite !hex_digit_upper.
  - split; [lia | reflexivity].
  - apply Z.mod_pos_bound. lia.
  - split; [apply Z.div_pos; lia | apply Z.div_lt_upper_bound; lia].
Qed.

Lemma le_bytes_shape k : forall n,
  Forall (fun b => 0 <= b < 256) (le_bytes k n) /\
  List.length (le_bytes k n) = k.
Proof.
  induction k as [| k IH]; intros n; [split; [constructor | reflexivity] |].
  cbn [le_bytes List.length]. destruct (IH (n / 256)) as [Hr Hl]. split.
  - constructor; [apply Z.mod_pos_bound; lia | exact Hr].
  - rewrite Hl. reflexivity.
Qed.

(** a digest in upper case is 32 characters out of [0-9A-F] *)
Lemma hash_result_shape s :
  String.length (hash_result s) = 32%nat /\ all_upper_hex (hash_result s) = true.
Proof.
  unfold hash_result, md5_hexdigest, digest.
  set (r := md5 (encode s)).
  destruct (le_bytes_shape 4 (rA r)) as [Ha La], (le_bytes_shape 4 (rB r)) as [Hb Lb],
    (le_bytes_shape 4 (rC r)) as [Hc Lc], (le_bytes_shape 4 (rD r)) as [Hd Ld].
  destruct (hex_of_shape (le_bytes 4 (rA r) ++ le_bytes 4 (rB r)
                          ++ le_bytes 4 (rC r) ++ le_bytes 4 (rD r))) as [Hlen Hhex].
  { repeat (apply Forall_app; split); assumption. }
  split; [| exact Hhex].
  rewrite Hlen, !List.length_app, La, Lb, Lc, Ld. reflexivity.
Qed.

Lemma format_nonnegative n :
  0 <= n ->
  Fmt.all_digits (Fmt.format_010d n) = true /\
  Fmt.decimal_value (Fmt.format_010d n) = n.
Proof.
  intros Hn. unfold Fmt.format_010d.
  replace (n <? 0) with false by (symmetry; apply Z.ltb_ge; lia).
  unfold Fmt.zfill. split.
  - apply zeros_all_digits, digits_all_digits, Hn.
  - rewrite zeros_value. apply digits_value, Hn.
Qed.

Lemma format_negative_shape n :
  n < 0 ->
  exists tail, Fmt.format_010d n = String "-" tail /\
               Fmt.all_digits tail = true /\ Fmt.decimal_value tail = - n.
Proof.
  intros Hn. unfold Fmt.format_010d.
  replace (n <? 0) with true by (symmetry; apply Z.ltb_lt; lia).
  eexists. split; [reflexivity |]. unfold Fmt.zfill. split.
  - apply zeros_all_digits, digits_all_digits. lia.
  - rewrite zeros_value. apply digits_value. lia.
Qed.

End Shapes.

(** X16: the digest is upper-cased, the target is not.  A target
    that is not 32 characters out of [0-9A-F], a lower-case one for
    example, matches no candidate: the worker scans its whole range and
    reports nothing. *)
Theorem malformed_target_is_never_found
    (start end_ : Z) (target_hash : string) :
  String.length target_hash <> 32%nat \/ Client.all_upper_hex target_hash = false ->
  Client.worker start end_ target_hash = None.
Proof.
  intros Hbad. apply worker_none. intros n _ Hhit.
  unfold Client.hits in Hhit.
  destruct (hash_result_shape (Fmt.format_010d n)) as [Hlen Hhex].
  rewrite Hhit in Hlen, Hhex.
  destruct Hbad as [Hbad | Hbad]; congruence.
Qed.

(** X17: the fixed-width form determines the number.  A number that
    is not negative is written in decimal digits that read back as the
    number; a negative one as a minus sign followed by digits that read
    back as its absolute value; so two different integers never share a
    form. *)
Theorem format_010d_is_injective (a b : Z) :
  (0 <= a -> Fmt.all_digits (Fmt.format_010d a) = true /\
             Fmt.decimal_value (Fmt.format_010d a) = a) /\
  (a < 0 -> exists tail, Fmt.format_010d a = String "-" tail /\
                         Fmt.all_digits tail = true /\
                         Fmt.decimal_value tail = - a) /\
  (Fmt.format_010d a = Fmt.format_010d b -> a = b).
Proof.
  split; [apply format_nonnegative |]. split; [apply format_negative_shape |].
  intros E.
  destruct (Z.lt_ge_cases a 0) as [Ha | Ha], (Z.lt_ge_cases b 0) as [Hb | Hb].
  - destruct (format_negative_shape a Ha) as (ta & Ea & _ & Va).
    destruct (format_negative_shape b Hb) as (tb & Eb & _ & Vb).
    rewrite Ea, Eb in E. injection E as E. rewrite E in Va. lia.
  - destruct (format_negative_shape a Ha) as (ta & Ea & _).
    destruct (format_nonnegative b Hb) as [Db _].
    rewrite <- E, Ea in Db. discriminate.
  - destruct (format_negative_shape b Hb) as (tb & Eb & _).
    destruct (format_nonnegative a Ha) as [Da _].
    rewrite E, Eb in Da. discriminate.
  - destruct (format_nonnegative a Ha) as [_ Va].
    destruct (format_nonnegative b Hb) as [_ Vb].
    rewrite E in Va. lia.
Qed.

(* ===================================================================== *)
(** ** The coordinator from its start                                     *)
(* ===================================================================== *)

Section FromStartup.
Import Protocol Server.

Lemma run_no_leftovers evs : forall sys,
  no_leftovers sys -> no_leftovers (run sys evs).
Proof.
  induction evs as [| e evs IH]; intros sys H; [exact H |].
  apply IH, step_no_leftovers, H.
Qed.

Lemma stops_to_app c l1 l2 :
  stops_to c (l1 ++ l2) = (stops_to c l1 + stops_to c l2)%nat.
Proof. unfold stops_to. rewrite List.filter_app, List.length_app. reflexivity. Qed.

Lemma stops_to_stop_all c cs : stops_to c (stop_all cs) = registrations c cs.
Proof.
  unfold stops_to, registrations.
  induction cs as [| cl cs IH]; [reflexivity |].
  cbn [stop_all map List.filter fst snd].
  destruct (Nat.eqb (client_conn cl) c); cbn [andb List.length]; rewrite <- IH;
    reflexivity.
Qed.

Lemma registrations_app c cs1 cs2 :
  registrations c (cs1 ++ cs2) = (registrations c cs1 + registrations c cs2)%nat.
Proof. unfold registrations. rewrite List.filter_app, List.length_app. reflexivity. Qed.

Lemma registrations_cleanup c c' cs :
  registrations c' (filter (fun cl => client_conn cl <> c) cs)
  = if Nat.eqb c' c then 0%nat else registrations c' cs.
Proof.
  unfold registrations.
  destruct (Nat.eqb_spec c' c) as [-> | Hcc];
    induction cs as [| cl cs IH]; try reflexivity;
    rewrite filter_cons; destruct (decide (client_conn cl <> c)) as [Hne | Heq];
    cbn [List.filter].
  - apply Nat.eqb_neq in Hne. rewrite Hne. exact IH.
  - exact IH.
  - destruct (Nat.eqb (client_conn cl) c'); cbn [List.length]; rewrite IH;
      reflexivity.
  - assert (E : client_conn cl = c)
      by (destruct (Nat.eq_dec (client_conn cl) c); [assumption | contradiction]).
    replace (Nat.eqb (client_conn cl) c') with false
      by (symmetry; apply Nat.eqb_neq; congruence).
    exact IH.
Qed.

End FromStartup.

(** X2: under the same condition the blocks recorded in
    [assigned_work] are non-empty ranges of the keyspace that end below
    the cursor, and the blocks of two different connections share no
    number. *)
Theorem live_assignments_are_disjoint (evs : list Server.event) :
  Forall Server.well_declared evs ->
  Server.assignments_sound (Server.shared (Server.run Server.startup evs)).
Proof.
  intros Hok.
  apply run_assignments_sound;
    [exact startup_cores_positive | exact Hok | reflexivity |].
  split.
  - intros c w H. cbn in H. rewrite lookup_empty in H. discriminate.
  - intros c1 c2 w1 w2 _ H. cbn in H. rewrite lookup_empty in H. discriminate.
Qed.

(** X4: after any traffic a connection whose handler is not running
    has no block in [assigned_work] and no entry in [clients]; so a [stop]
    broadcast only goes to connections whose handler is running. *)
Theorem ended_handlers_leave_nothing (evs : list Server.event) :
  let sys := Server.run Server.startup evs in
  Server.no_leftovers sys /\
  Forall (fun cm => Server.handlers sys !! fst cm <> None)
         (Server.stop_all (Server.clients (Server.shared sys))).
Proof.
  intros sys.
  assert (Hinv : Server.no_leftovers sys).
  { apply run_no_leftovers. intros c _. split; [apply lookup_empty | constructor]. }
  split; [exact Hinv |].
  apply Forall_forall. intros cm Hcm Hnone.
  apply list_elem_of_In, in_map_iff in Hcm as (cl & <- & Hcl).
  destruct (Hinv _ Hnone) as [_ Hcs].
  rewrite Forall_forall in Hcs. apply list_elem_of_In in Hcl.
  exact (Hcs cl Hcl eq_refl).
Qed.

(** X6: a [found] line without a [number] field, on an unset
    outcome, still sets [found]: the KeyError comes after the flag is
    written.  [found_number] keeps its old value, no [stop] is broadcast,
    the connection is cleaned up as on a disconnect, and from then on
    every [request_work] is answered with [stop]. *)
Theorem found_without_number_ends_search
    (sys : Server.system) (c : Server.conn) (k : Z) :
  Server.handlers sys !! c = Some k ->
  Server.found (Server.shared sys) = false ->
  let sys' := Server.step sys (Server.Line c (Protocol.FoundMsg None)) in
  Server.found (Server.shared sys') = true /\
  Server.found_number (Server.shared sys') = Server.found_number (Server.shared sys) /\
  Server.sent (Server.shared sys') = Server.sent (Server.shared sys) /\
  Server.current_number (Server.shared sys')
    = Server.current_number (Server.shared sys) /\
  sys' = Server.step (Server.System
                        (fst (Server.handle_found_locked c None (Server.shared sys)))
                        (Server.handlers sys))
                     (Server.Closed c) /\
  Server.handlers sys' !! c = None /\
  (forall c' k',
     Server.assign_work c' k' (Server.shared sys')
       = (Server.send_message c' Protocol.Stop
            (Server.pop_work c' (Server.shared sys')), None)).
Proof.
  intros Hc Hf sys'.
  assert (E : sys' = Server.finish c
                (Server.System
                   (Server.Globals (Server.current_number (Server.shared sys)) true
                      (Server.found_number (Server.shared sys))
                      (Server.clients (Server.shared sys))
                      (delete c (Server.assigned_work (Server.shared sys)))
                      (Server.sent (Server.shared sys)))
                   (Server.handlers sys))).
  { unfold sys'. cbn [Server.step]. rewrite Hc. cbn [Server.dispatch].
    unfold Server.handle_found, Server.handle_found_locked.
    cbn [Server.pop_work Server.found]. rewrite Hf. reflexivity. }
  rewrite E.
  split; [reflexivity |]. split; [reflexivity |]. split; [reflexivity |].
  split; [reflexivity |]. split.
  { unfold Server.handle_found_locked. cbn [Server.pop_work Server.found].
    rewrite Hf. cbn [fst Server.step Server.handlers]. rewrite Hc. reflexivity. }
  split; [apply lookup_delete_eq |].
  intros c' k'.
  destruct (assign_work_cases c' k'
              (Server.shared (Server.finish c
                 (Server.System
                    (Server.Globals (Server.current_number (Server.shared sys)) true
                       (Server.found_number (Server.shared sys))
                       (Server.clients (Server.shared sys))
                       (delete c (Server.assigned_work (Server.shared sys)))
                       (Server.sent (Server.shared sys)))
                    (Server.handlers sys)))))
    as [(_ & Ea) | [(Hx & _) | (Hx & _)]]; [exact Ea | discriminate | discriminate].
Qed.

(** X7: [register_client] does not look for an earlier entry.
    Every [register] line adds an entry for its connection; a broadcast
    sends a connection one [stop] per entry; [cleanup_client] removes all
    entries of its connection and no entry of another. *)
Theorem one_stop_per_registration
    (g : Server.globals) (c c' : Server.conn) (cores : option Z) :
  Server.stops_to c' (Server.sent (Server.notify_all_clients g))
    = (Server.stops_to c' (Server.sent g)
       + Server.registrations c' (Server.clients g))%nat /\
  Server.registrations c'
    (Server.clients (fst (Server.register_client c cores g)))
    = (Server.registrations c' (Server.clients g)
       + if Nat.eqb c c' then 1 else 0)%nat /\
  Server.registrations c' (Server.clients (Server.cleanup_client c g))
    = if Nat.eqb c' c then 0%nat else Server.registrations c' (Server.clients g).
Proof.
  split; [| split].
  - cbn [Server.notify_all_clients Server.sent].
    rewrite stops_to_app, stops_to_stop_all. reflexivity.
  - cbn [Server.register_client fst Server.clients].
    rewrite registrations_app. f_equal.
    unfold Server.registrations. cbn [List.filter Server.client_conn].
    destruct (Nat.eqb c c'); reflexivity.
  - cbn [Server.cleanup_client Server.pop_work Server.clients].
    apply registrations_cleanup.
Qed.

Section BlockSizes.
Import Protocol Server.

(** the cursor sits on a multiple of the block size, every block sent is
    a positive number of block sizes long, and the blocks sent fit below
    the cursor *)
Lemma step_block_sizes sys e :
  cores_positive sys ->
  (exists m, 0 <= m <= 50000 /\
             current_number (shared sys) = BLOCK_SIZE_PER_CORE * m) ->
  BLOCK_SIZE_PER_CORE * Z.of_nat (List.length (issued (sent (shared sys))))
    <= current_number (shared sys) ->
  Forall (fun r => exists j, 1 <= j /\ snd r - fst r + 1 = BLOCK_SIZE_PER_CORE * j)
         (issued (sent (shared sys))) ->
  (exists m, 0 <= m <= 50000 /\
             current_number (shared (step sys e)) = BLOCK_SIZE_PER_CORE * m) /\
  BLOCK_SIZE_PER_CORE * Z.of_nat (List.length (issued (sent (shared (step sys e)))))
    <= current_number (shared (step sys e)) /\
  Forall (fun r => exists j, 1 <= j /\ snd r - fst r + 1 = BLOCK_SIZE_PER_CORE * j)
         (issued (sent (shared (step sys e)))).
Proof.
  intros Hpos (m & Hm & Hcur) Hlen Hsizes.
  destruct (step_effect sys e)
    as [(Hc & _ & new & Enew & Hnone) | (c & k & -> & Hc & Hf & Hle & E)].
  - rewrite Hc, Enew, issued_app, Hnone, app_nil_r.
    split; [exists m; split; assumption |]. split; assumption.
  - cbv zeta in E. rewrite E. clear E. cbn [shared sent current_number].
    pose proof (Hpos c k Hc) as Hk.
    rewrite issued_app, List.length_app.
    change (issued [(c, WorkMsg ?a ?b ?t)]) with [(a, b)].
    cbn [List.length].
    change END_NUMBER with 9999999999 in *. unfold BLOCK_SIZE_PER_CORE in *.
    rewrite Hcur in *.
    split; [| split].
    + exists (Z.min (m + k) 50000). split; lia.
    + lia.
    + apply Forall_app. split; [exact Hsizes |].
      constructor; [| constructor]. cbn [fst snd].
      exists (Z.min (m + k) 50000 - m). split; lia.
Qed.

Lemma run_block_sizes evs : forall sys,
  cores_positive sys -> Forall well_declared evs ->
  (exists m, 0 <= m <= 50000 /\
             current_number (shared sys) = BLOCK_SIZE_PER_CORE * m) ->
  BLOCK_SIZE_PER_CORE * Z.of_nat (List.length (issued (sent (shared sys))))
    <= current_number (shared sys) ->
  Forall (fun r => exists j, 1 <= j /\ snd r - fst r + 1 = BLOCK_SIZE_PER_CORE * j)
         (issued (sent (shared sys))) ->
  (exists m, 0 <= m <= 50000 /\
             current_number (shared (run sys evs)) = BLOCK_SIZE_PER_CORE * m) /\
  BLOCK_SIZE_PER_CORE * Z.of_nat (List.length (issued (sent (shared (run sys evs)))))
    <= current_number (shared (run sys evs)) /\
  Forall (fun r => exists j, 1 <= j /\ snd r - fst r + 1 = BLOCK_SIZE_PER_CORE * j)
         (issued (sent (shared (run sys evs)))).
Proof.
  induction evs as [| e evs IH]; intros sys Hpos Hok Hm Hlen Hsizes.
  - split; [exact Hm |]. split; assumption.
  - inversion Hok as [| ? ? He Hevs]; subst.
    destruct (step_block_sizes sys e Hpos Hm Hlen Hsizes) as (Hm1 & Hlen1 & Hs1).
    change (run sys (e :: evs)) with (run (step sys e) evs).
    apply IH; try assumption.
    exact (proj1 (step_cursor sys e Hpos He)).
Qed.

End BlockSizes.

(** X8: with every [register] line declaring at least one core, the
    cursor always stands on a multiple of [BLOCK_SIZE_PER_CORE], every
    block sent holds a positive multiple of [BLOCK_SIZE_PER_CORE] numbers
    ([END_NUMBER + 1] is itself such a multiple, so the last block is not
    cut inside a unit), and no more than 50000 blocks are ever sent. *)
Theorem at_most_50000_blocks (evs : list Server.event) :
  Forall Server.well_declared evs ->
  let g := Server.shared (Server.run Server.startup evs) in
  (exists m, 0 <= m <= 50000 /\
             Server.current_number g = Server.BLOCK_SIZE_PER_CORE * m) /\
  Forall (fun r => exists j, 1 <= j /\
                             snd r - fst r + 1 = Server.BLOCK_SIZE_PER_CORE * j)
         (Server.issued (Server.sent g)) /\
  Z.of_nat (List.length (Server.issued (Server.sent g))) <= 50000.
Proof.
  intros Hok g.
  destruct (run_block_sizes evs Server.startup startup_cores_positive Hok)
    as ((m & Hm & Hcur) & Hlen & Hsizes).
  - exists 0. split; [lia | reflexivity].
  - apply Z.leb_le. reflexivity.
  - constructor.
  - fold g in Hcur, Hlen, Hsizes.
    split; [exists m; split; assumption |]. split; [exact Hsizes |].
    rewrite Hcur in Hlen. unfold Server.BLOCK_SIZE_PER_CORE in Hlen. lia.
Qed.

(** X9: a block that [assign_work] carves for [k] cores without
    reaching [END_NUMBER] is split by [process_work], run with the same
    [k], into [k] sub-ranges of exactly [BLOCK_SIZE_PER_CORE] numbers
    each. *)
Theorem full_block_splits_evenly
    (g : Server.globals) (c : Server.conn) (k : Z) :
  Server.found g = false ->
  1 <= k ->
  Server.current_number g + Server.BLOCK_SIZE_PER_CORE * k - 1 <= Server.END_NUMBER ->
  exists w,
    snd (Server.assign_work c k g) = Some w /\
    Server.start w = Server.current_number g /\
    Server.end_ w = Server.current_number g + Server.BLOCK_SIZE_PER_CORE * k - 1 /\
    Client.sub_ranges (Server.start w) (Server.end_ w) k
      = Some (map (fun i => (Server.current_number g + Server.BLOCK_SIZE_PER_CORE * i,
                             Server.current_number g + Server.BLOCK_SIZE_PER_CORE * i
                               + Server.BLOCK_SIZE_PER_CORE - 1))
                  (Client.py_range 0 k)).
Proof.
  intros Hf Hk Hfit.
  destruct (assign_work_cases c k g)
    as [(Hx & _) | [(_ & Hgt & _) | (_ & Hle & E)]];
    [congruence | unfold Server.BLOCK_SIZE_PER_CORE in Hfit; lia |].
  rewrite E. cbn [snd]. eexists. split; [reflexivity |].
  cbn [Server.start Server.end_].
  rewrite Z.min_l by lia.
  split; [reflexivity |]. split; [reflexivity |].
  set (cur := Server.current_number g) in *.
  rewrite (sub_ranges_eq cur (cur + Server.BLOCK_SIZE_PER_CORE * k - 1) k) by lia.
  replace (cur + Server.BLOCK_SIZE_PER_CORE * k - 1 - cur + 1)
    with (Server.BLOCK_SIZE_PER_CORE * k) by lia.
  rewrite Z.div_mul by lia.
  unfold Client.py_range. replace (k - 0) with k by lia.
  f_equal. apply List.map_ext_in. intros i Hi.
  apply in_map_iff in Hi as (j & <- & Hj). apply in_seq in Hj.
  unfold Client.process_bounds, Server.BLOCK_SIZE_PER_CORE.
  destruct (Z.ltb_spec (0 + Z.of_nat j) (k - 1)); f_equal; lia.
Qed.

(* ===================================================================== *)
(** ** The further theorems at concrete runs                              *)
(* ===================================================================== *)

(** two connections served one after the other, both still connected *)
Lemma live_assignments_are_disjoint_witness :
  let evs := [ Server.Accept 1%nat;
               Server.Line 1%nat (Protocol.Register (Some 2));
               Server.Line 1%nat Protocol.RequestWork;
               Server.Accept 2%nat;
               Server.Line 2%nat Protocol.RequestWork ] in
  Forall Server.well_declared evs /\
  Server.assignments_sound (Server.shared (Server.run Server.startup evs)).
Proof.
  cbv zeta.
  assert (Hok : Forall Server.well_declared
            [ Server.Accept 1%nat;
              Server.Line 1%nat (Protocol.Register (Some 2));
              Server.Line 1%nat Protocol.RequestWork;
              Server.Accept 2%nat;
              Server.Line 2%nat Protocol.RequestWork ])
    by (repeat constructor; simpl; lia).
  split; [exact Hok |].
  exact (live_assignments_are_disjoint _ Hok).
Defined.

(** a connection whose first line is a [found] without [number] *)
Lemma found_without_number_ends_search_witness :
  let sys := Server.run Server.startup [Server.Accept 3%nat] in
  Server.handlers sys !! 3%nat = Some 1 /\
  Server.found (Server.shared sys) = false /\
  Server.GlobalOutcome
    (Server.shared (Server.step sys (Server.Line 3%nat (Protocol.FoundMsg None))))
    = Server.FoundValue Protocol.PyNone.
Proof.
  cbv zeta.
  assert (Hc : Server.handlers (Server.run Server.startup [Server.Accept 3%nat]) !! 3%nat
               = Some 1) by (vm_compute; reflexivity).
  split; [exact Hc |]. split; [reflexivity |].
  destruct (found_without_number_ends_search _ 3%nat 1 Hc eq_refl)
    as (Hf & Hn & _).
  unfold Server.GlobalOutcome. rewrite Hf, Hn. reflexivity.
Defined.

(** the same traffic as above *)
Lemma at_most_50000_blocks_witness :
  let evs := [ Server.Accept 1%nat;
               Server.Line 1%nat (Protocol.Register (Some 2));
               Server.Line 1%nat Protocol.RequestWork;
               Server.Accept 2%nat;
               Server.Line 2%nat Protocol.RequestWork ] in
  Forall Server.well_declared evs /\
  Z.of_nat (List.length
              (Server.issued
                 (Server.sent (Server.shared (Server.run Server.startup evs)))))
    <= 50000.
Proof.
  cbv zeta.
  assert (Hok : Forall Server.well_declared
            [ Server.Accept 1%nat;
              Server.Line 1%nat (Protocol.Register (Some 2));
              Server.Line 1%nat Protocol.RequestWork;
              Server.Accept 2%nat;
              Server.Line 2%nat Protocol.RequestWork ])
    by (repeat constructor; simpl; lia).
  split; [exact Hok |].
  exact (proj2 (proj2 (at_most_50000_blocks _ Hok))).
Defined.

(** the first block, for four cores *)
Lemma full_block_splits_evenly_witness :
  Server.found Server.initial = false /\ 1 <= 4 /\
  Server.current_number Server.initial + Server.BLOCK_SIZE_PER_CORE * 4 - 1
    <= Server.END_NUMBER /\
  Client.sub_ranges 0 799999 4
    = Some [(0, 199999); (200000, 399999); (400000, 599999); (600000, 799999)].
Proof.
  assert (H1 : 1 <= 4) by lia.
  assert (H2 : Server.current_number Server.initial
               + Server.BLOCK_SIZE_PER_CORE * 4 - 1 <= Server.END_NUMBER)
    by (apply Z.leb_le; reflexivity).
  split; [reflexivity |]. split; [exact H1 |]. split; [exact H2 |].
  destruct (full_block_splits_evenly Server.initial 1%nat 4 eq_refl H1 H2)
    as (w & Hw & Hs & He & Hsplit).
  rewrite Hs, He in Hsplit. exact Hsplit.
Defined.



(** block [0, 99] on four processes, searched for the fingerprint of 42 *)
Lemma pool_finds_what_the_block_holds_witness :
  0 <= 99 /\ 1 <= 4 /\
  exists puts,
    Client.queue_puts 0 99 4 "2FB362FBF84BEDB41530AF52286EA596" = Some puts /\
    Z.of_nat (List.length puts) = 4.
Proof.
  assert (H1 : 0 <= 99) by lia. assert (H2 : 1 <= 4) by lia.
  split; [exact H1 |]. split; [exact H2 |].
  destruct (pool_finds_what_the_block_holds
              0 99 4 "2FB362FBF84BEDB41530AF52286EA596" H1 H2)
    as (puts & E & Hlen & _).
  exists puts. split; assumption.
Defined.

(** three processes too few *)
Lemma pool_without_processes_witness :
  -3 < 0 /\
  Client.queue_puts 0 99 (-3) "2FB362FBF84BEDB41530AF52286EA596" = Some [].
Proof.
  assert (H : -3 < 0) by lia.
  split; [exact H |].
  exact (proj1 (proj2 (pool_without_processes
                         0 99 (-3) "2FB362FBF84BEDB41530AF52286EA596" H))).
Defined.

(** two numbers on four processes *)
Lemma small_block_goes_to_last_process_witness :
  5 <= 6 /\ 6 - 5 + 1 < 4 /\
  Client.sub_ranges 5 6 4 = Some [(5, 4); (5, 4); (5, 4); (5, 6)].
Proof.
  assert (H1 : 5 <= 6) by lia. assert (H2 : 6 - 5 + 1 < 4) by lia.
  split; [exact H1 |]. split; [exact H2 |].
  exact (small_block_goes_to_last_process 5 6 4 H1 H2).
Defined.

(** the fingerprint of 42 in lower case *)
Lemma malformed_target_is_never_found_witness :
  Client.all_upper_hex "2fb362fbf84bedb41530af52286ea596" = false /\
  Client.worker 0 99 "2fb362fbf84bedb41530af52286ea596" = None.
Proof.
  split; [reflexivity |].
  exact (malformed_target_is_never_found
           0 99 "2fb362fbf84bedb41530af52286ea596" (or_intror eq_refl)).
Defined.

(* ===================================================================== *)
(** ** The coordinator, one lock block at a time                          *)
(* ===================================================================== *)

Section LockBlocks.
Import Protocol Server.

Lemma todo_of_app c l c' a :
  Threads.todo_of c (l ++ [(c', a)]) =
  match Threads.todo_of c l with
  | Some x => Some x
  | None => if Nat.eqb c' c then Some a else None
  end.
Proof.
  induction l as [| [c0 a0] l IH]; [reflexivity |].
  cbn [app Threads.todo_of]. destruct (Nat.eqb c0 c); [reflexivity | exact IH].
Qed.

Lemma drop_todo_none c l : Threads.todo_of c l = None -> Threads.drop_todo c l = l.
Proof.
  induction l as [| [c0 a0] l IH]; intros H; [reflexivity |].
  cbn [Threads.todo_of Threads.drop_todo] in *.
  destruct (Nat.eqb c0 c); [discriminate | rewrite (IH H); reflexivity].
Qed.

Lemma drop_todo_some c l a :
  Threads.todo_of c l = Some a ->
  exists l1 l2, l = l1 ++ (c, a) :: l2 /\ Threads.drop_todo c l = l1 ++ l2.
Proof.
  induction l as [| [c0 a0] l IH]; intros H; [discriminate |].
  cbn [Threads.todo_of Threads.drop_todo] in *.
  destruct (Nat.eqb_spec c0 c) as [-> | Hne].
  - injection H as ->. exists [], l. split; reflexivity.
  - destruct (IH H) as (l1 & l2 & -> & E).
    exists ((c0, a0) :: l1), l2. split; [reflexivity |].
    rewrite E. reflexivity.
Qed.

Lemma drop_todo_other c c0 l :
  c0 <> c -> Threads.todo_of c0 (Threads.drop_todo c l) = Threads.todo_of c0 l.
Proof.
  intros Hne. induction l as [| [c1 a1] l IH]; [reflexivity |].
  cbn [Threads.todo_of Threads.drop_todo].
  destruct (Nat.eqb_spec c1 c) as [-> | Hc].
  - destruct (Nat.eqb_spec c c0); [congruence | reflexivity].
  - cbn [Threads.todo_of]. rewrite IH. reflexivity.
Qed.

Lemma waiting_app l1 l2 :
  Threads.waiting (l1 ++ l2) = Threads.waiting l1 ++ Threads.waiting l2.
Proof. unfold Threads.waiting. apply omap_app. Qed.

(** a handler that is not about to send a block can be taken off the
    list without a change to the blocks that wait *)
Lemma waiting_drop c l :
  (forall w, Threads.todo_of c l <> Some (Threads.SendWork w)) ->
  Threads.waiting (Threads.drop_todo c l) = Threads.waiting l.
Proof.
  intros Hnot. destruct (Threads.todo_of c l) as [a |] eqn:E.
  - destruct (drop_todo_some c l a E) as (l1 & l2 & -> & ->).
    rewrite !waiting_app. f_equal.
    destruct a as [w | | rest |]; [exfalso; exact (Hnot w eq_refl) | | |]; reflexivity.
  - rewrite (drop_todo_none c l E). reflexivity.
Qed.

(** the three ways through the lock block of [assign_work] *)
Lemma assign_work_locked_cases c k g :
  (found g = true /\
   Threads.assign_work_locked c k g = (send_message c Stop (pop_work c g), None)) \/
  (found g = false /\ END_NUMBER < current_number g /\
   Threads.assign_work_locked c k g = (send_message c NoWork (pop_work c g), None)) \/
  (found g = false /\ current_number g <= END_NUMBER /\
   let last := Z.min (current_number g + BLOCK_SIZE_PER_CORE * k - 1) END_NUMBER in
   Threads.assign_work_locked c k g =
     (Globals (last + 1) false (found_number g) (clients g)
              (<[c := Work (current_number g) last]> (delete c (assigned_work g)))
              (sent g),
      Some (Work (current_number g) last))).
Proof.
  unfold Threads.assign_work_locked. cbn [pop_work found current_number].
  destruct (found g) eqn:Hf.
  - left. split; reflexivity.
  - right. destruct (Z.gtb_spec (current_number g) END_NUMBER) as [Hgt | Hle].
    + left. repeat split. exact Hgt.
    + right. repeat split. exact Hle.
Qed.

(** the lock block and the send after it make up [assign_work] *)
Lemma assign_work_in_two c k g :
  assign_work c k g =
  match Threads.assign_work_locked c k g with
  | (g', Some w) => (send_message c (WorkMsg (start w) (end_ w) TARGET_HASH) g', Some w)
  | (g', None) => (g', None)
  end.
Proof.
  unfold assign_work, Threads.assign_work_locked. cbn [pop_work found current_number].
  destruct (found g); [reflexivity |].
  destruct (current_number g >? END_NUMBER); reflexivity.
Qed.

Lemma quiet_same t cs : Threads.quiet_step t (Threads.Threads (Threads.globals_of t) cs (Threads.todo t)).
Proof.
  split; [reflexivity |]. split; [intros H; exact H |].
  split; [intros c w H; exact H |].
  split; [exists []; split; [symmetry; apply app_nil_r | reflexivity] |].
  split; [reflexivity | intros c w H; exact H].
Qed.

(** what is needed of a step to be quiet, for the ways the list of
    handlers at work can change *)
Lemma quiet_intro t g' cs' l' :
  current_number g' = current_number (Threads.globals_of t) ->
  (found (Threads.globals_of t) = true -> found g' = true) ->
  (forall c w, assigned_work g' !! c = Some w ->
               assigned_work (Threads.globals_of t) !! c = Some w) ->
  (exists new, sent g' = sent (Threads.globals_of t) ++ new /\ issued new = []) ->
  l' = Threads.todo t \/
  (exists c a, (forall w, a <> Threads.SendWork w) /\
               Threads.todo_of c (Threads.todo t) = None /\
               l' = Threads.todo t ++ [(c, a)]) \/
  (exists c, (forall w, Threads.todo_of c (Threads.todo t) <> Some (Threads.SendWork w)) /\
             l' = Threads.drop_todo c (Threads.todo t)) \/
  (exists c a, (forall w, a <> Threads.SendWork w) /\
               (forall w, Threads.todo_of c (Threads.todo t) <> Some (Threads.SendWork w)) /\
               l' = Threads.drop_todo c (Threads.todo t) ++ [(c, a)]) ->
  Threads.quiet_step t (Threads.Threads g' cs' l').
Proof.
  intros Hcur Hf Hsh Hnew Hl.
  split; [exact Hcur |]. split; [exact Hf |]. split; [exact Hsh |].
  split; [exact Hnew |]. cbn [Threads.todo].
  assert (Hone : forall c a, (forall w, a <> Threads.SendWork w) ->
                             Threads.waiting [(c, a)] = []).
  { intros c a Ha. destruct a as [w | | rest |];
      [exfalso; exact (Ha w eq_refl) | | |]; reflexivity. }
  destruct Hl as [-> | [(c & a & Ha & Hc & ->) | [(c & Hc & ->) | (c & a & Ha & Hc & ->)]]].
  - split; [reflexivity | intros c w H; exact H].
  - split.
    + rewrite waiting_app, (Hone c a Ha). apply app_nil_r.
    + intros c0 w H. rewrite todo_of_app, H. reflexivity.
  - split; [apply waiting_drop, Hc |].
    intros c0 w H. rewrite drop_todo_other; [exact H |].
    intros ->. exact (Hc w H).
  - split.
    + rewrite waiting_app, (Hone c a Ha), app_nil_r. apply waiting_drop, Hc.
    + intros c0 w H. rewrite todo_of_app, drop_todo_other, H; [reflexivity |].
      intros ->. exact (Hc w H).
Qed.

Lemma quiet_finish c t :
  (forall w, Threads.todo_of c (Threads.todo t) <> Some (Threads.SendWork w)) ->
  Threads.quiet_step t (Threads.finish c t).
Proof.
  intros Hc. unfold Threads.finish. apply quiet_intro.
  - reflexivity.
  - intros H. exact H.
  - intros c' w H. cbn in H. apply lookup_delete_Some in H as [_ H]. exact H.
  - exists []. split; [symmetry; apply app_nil_r | reflexivity].
  - right. right. left. exists c. split; [exact Hc | reflexivity].
Qed.

(** a step is quiet, or carves a block, or sends one *)
Lemma lock_step_effect t e :
  Threads.quiet_step t (Threads.step t e) \/
  (exists c k,
     e = Threads.Line c RequestWork /\ Threads.cores_of t !! c = Some k /\
     Threads.todo_of c (Threads.todo t) = None /\
     found (Threads.globals_of t) = false /\
     current_number (Threads.globals_of t) <= END_NUMBER /\
     let g := Threads.globals_of t in
     let last := Z.min (current_number g + BLOCK_SIZE_PER_CORE * k - 1) END_NUMBER in
     Threads.step t e =
       Threads.Threads
         (Globals (last + 1) false (found_number g) (clients g)
                  (<[c := Work (current_number g) last]> (delete c (assigned_work g)))
                  (sent g))
         (Threads.cores_of t)
         (Threads.todo t ++ [(c, Threads.SendWork (Work (current_number g) last))])) \/
  (exists c w,
     e = Threads.Resume c /\
     Threads.todo_of c (Threads.todo t) = Some (Threads.SendWork w) /\
     Threads.step t e =
       Threads.Threads
         (send_message c (WorkMsg (start w) (end_ w) TARGET_HASH) (Threads.globals_of t))
         (Threads.cores_of t) (Threads.drop_todo c (Threads.todo t))).
Proof.
  assert (Hsame : forall cs, Threads.quiet_step t
            (Threads.Threads (Threads.globals_of t) cs (Threads.todo t)))
    by (intros cs; apply quiet_same).
  assert (Hid : Threads.quiet_step t t) by (destruct t; apply quiet_same).
  destruct e as [c | c m | c | c]; cbn [Threads.step].
  - (* Accept *)
    left. destruct (Threads.cores_of t !! c); [exact Hid | apply Hsame].
  - (* Line *)
    destruct (Threads.cores_of t !! c) as [k |] eqn:Hc; [| left; exact Hid].
    destruct (Threads.todo_of c (Threads.todo t)) as [a |] eqn:Hp; [left; exact Hid |].
    assert (Hnot : forall w, Threads.todo_of c (Threads.todo t)
                             <> Some (Threads.SendWork w))
      by (intros w; rewrite Hp; discriminate).
    destruct (Threads.lock_held (Threads.todo t)); [left; exact Hid |].
    destruct m as [| | cores | | number |]; cbn [Threads.dispatch].
    + left. exact Hid.
    + left. apply quiet_finish, Hnot.
    + left. cbn [register_client]. apply quiet_intro.
      * reflexivity.
      * intros H; exact H.
      * intros c' w H; exact H.
      * exists []. split; [symmetry; apply app_nil_r | reflexivity].
      * left. reflexivity.
    + destruct (assign_work_locked_cases c k (Threads.globals_of t))
        as [(Hf & E) | [(Hf & Hgt & E) | (Hf & Hle & E)]].
      * left. rewrite E. apply quiet_intro.
        -- reflexivity.
        -- intros H; exact H.
        -- intros c' w H. cbn in H. apply lookup_delete_Some in H as [_ H]. exact H.
        -- exists [(c, Stop)]. split; reflexivity.
        -- left. reflexivity.
      * left. rewrite E. apply quiet_intro.
        -- reflexivity.
        -- intros H; exact H.
        -- intros c' w H. cbn in H. apply lookup_delete_Some in H as [_ H]. exact H.
        -- exists [(c, NoWork)]. split; reflexivity.
        -- left. reflexivity.
      * right. left. exists c, k.
        split; [reflexivity |]. split; [exact Hc |]. split; [exact Hp |].
        split; [exact Hf |]. split; [exact Hle |].
        cbv zeta in *. rewrite E. reflexivity.
    + left.
      assert (Hq : forall g' raised,
                handle_found_locked c number (Threads.globals_of t) = (g', raised) ->
                Threads.quiet_step t
                  (Threads.Threads g' (Threads.cores_of t)
                     (Threads.todo t
                      ++ [(c, if raised then Threads.Cleanup else Threads.Notify)]))).
      { intros g' raised E.
        unfold handle_found_locked in E. cbn [pop_work found] in E.
        assert (Hfacts :
                  current_number g' = current_number (Threads.globals_of t) /\
                  (found (Threads.globals_of t) = true -> found g' = true) /\
                  assigned_work g' = delete c (assigned_work (Threads.globals_of t)) /\
                  sent g' = sent (Threads.globals_of t)).
        { destruct (found (Threads.globals_of t)) eqn:Hf; [| destruct number];
            injection E as <- <-; cbn; repeat split; intros; try exact Hf; reflexivity. }
        destruct Hfacts as (Hcur & Hmono & Ha & Hs).
        apply quiet_intro.
        - exact Hcur.
        - exact Hmono.
        - intros c' w H. rewrite Ha in H.
          apply lookup_delete_Some in H as [_ H]. exact H.
        - exists []. split; [rewrite app_nil_r; exact Hs | reflexivity].
        - right. left. exists c. eexists. split; [| split; [exact Hp | reflexivity]].
          intros w. destruct raised; discriminate. }
      destruct (handle_found_locked c number (Threads.globals_of t)) as [g' raised].
      apply Hq. reflexivity.
    + left. exact Hid.
  - (* Closed *)
    destruct (Threads.cores_of t !! c) as [k |] eqn:Hc; [| left; exact Hid].
    destruct (Threads.todo_of c (Threads.todo t)) as [a |] eqn:Hp; [left; exact Hid |].
    destruct (Threads.lock_held (Threads.todo t)); [left; exact Hid |].
    left. apply quiet_finish. intros w. rewrite Hp. discriminate.
  - (* Resume *)
    unfold Threads.resume.
    destruct (Threads.todo_of c (Threads.todo t)) as [[w | | [| c' rest] |] |] eqn:Hp.
    + right. right. exists c, w. split; [reflexivity |]. split; [exact Hp | reflexivity].
    + left. destruct (Threads.lock_held (Threads.todo t)); [exact Hid |].
      apply quiet_intro.
      * reflexivity.
      * intros H; exact H.
      * intros c' w H; exact H.
      * exists []. split; [symmetry; apply app_nil_r | reflexivity].
      * right. right. right. exists c. eexists.
        split; [| split; [| reflexivity]]; intros w; [| rewrite Hp]; discriminate.
    + left. apply quiet_intro.
      * reflexivity.
      * intros H; exact H.
      * intros c' w H; exact H.
      * exists []. split; [symmetry; apply app_nil_r | reflexivity].
      * right. right. left. exists c. split; [| reflexivity].
        intros w. rewrite Hp. discriminate.
    + left. apply quiet_intro.
      * reflexivity.
      * intros H; exact H.
      * intros c0 w H; exact H.
      * exists [(c', Stop)]. split; reflexivity.
      * right. right. right. exists c. eexists.
        split; [| split; [| reflexivity]]; intros w; [| rewrite Hp]; discriminate.
    + left. destruct (Threads.lock_held (Threads.todo t)); [exact Hid |].
      apply quiet_finish. intros w. rewrite Hp. discriminate.
    + left. exact Hid.
Qed.

Lemma lock_startup_cores_positive : Threads.cores_positive Threads.startup.
Proof. intros c k H. cbn in H. rewrite lookup_empty in H. discriminate. Qed.

Lemma lock_step_cores_positive t e :
  Threads.cores_positive t -> Threads.well_declared e ->
  Threads.cores_positive (Threads.step t e).
Proof.
  intros Hpos Hok.
  assert (Hfin : forall c, Threads.cores_positive (Threads.finish c t)).
  { intros c c' k' Hl. cbn in Hl.
    apply lookup_delete_Some in Hl as [_ Hl]. exact (Hpos c' k' Hl). }
  destruct e as [c | c m | c | c]; cbn [Threads.step].
  - destruct (Threads.cores_of t !! c) eqn:Hc; [exact Hpos |].
    intros c' k' Hl. cbn in Hl.
    apply lookup_insert_Some in Hl as [[_ <-] | [_ Hl]]; [lia | exact (Hpos c' k' Hl)].
  - destruct (Threads.cores_of t !! c) as [k |]; [| exact Hpos].
    destruct (Threads.todo_of c (Threads.todo t)); [exact Hpos |].
    destruct (Threads.lock_held (Threads.todo t)); [exact Hpos |].
    destruct m as [| | cores | | number |]; cbn [Threads.dispatch];
      try exact Hpos; try apply Hfin.
    + intros c' k' Hl. cbn in Hl.
      apply lookup_insert_Some in Hl as [[_ <-] | [_ Hl]]; [| exact (Hpos c' k' Hl)].
      destruct cores as [k0 |]; [exact Hok | lia].
    + destruct (Threads.assign_work_locked c k (Threads.globals_of t)) as [g r].
      exact Hpos.
    + destruct (handle_found_locked c number (Threads.globals_of t)) as [g raised].
      exact Hpos.
  - destruct (Threads.cores_of t !! c) as [k |]; [| exact Hpos].
    destruct (Threads.todo_of c (Threads.todo t)); [exact Hpos |].
    destruct (Threads.lock_held (Threads.todo t)); [exact Hpos | apply Hfin].
  - unfold Threads.resume.
    destruct (Threads.todo_of c (Threads.todo t)) as [[w | | [| c' rest] |] |];
      try exact Hpos;
      destruct (Threads.lock_held (Threads.todo t)); try exact Hpos; apply Hfin.
Qed.

Lemma issued_one c s e t : issued [(c, WorkMsg s e t)] = [(s, e)].
Proof. reflexivity. Qed.

Lemma waiting_one c w : Threads.waiting [(c, Threads.SendWork w)] = [range_of w].
Proof. reflexivity. Qed.

(** every number below the cursor is in exactly one block, sent or
    waiting to be sent, and no other number is in any *)
Lemma lock_step_cover t e :
  Threads.cores_positive t ->
  START_NUMBER <= current_number (Threads.globals_of t) ->
  (forall n, Interval.cover n (issued (sent (Threads.globals_of t))
                               ++ Threads.waiting (Threads.todo t))
             = if (START_NUMBER <=? n) && (n <? current_number (Threads.globals_of t))
               then 1%nat else 0%nat) ->
  START_NUMBER <= current_number (Threads.globals_of (Threads.step t e)) /\
  (forall n, Interval.cover n (issued (sent (Threads.globals_of (Threads.step t e)))
                               ++ Threads.waiting (Threads.todo (Threads.step t e)))
             = if (START_NUMBER <=? n)
                  && (n <? current_number (Threads.globals_of (Threads.step t e)))
               then 1%nat else 0%nat).
Proof.
  intros Hpos Hlo Hcov.
  destruct (lock_step_effect t e)
    as [(Hcur & _ & _ & (new & Enew & Hnone) & Hw & _)
       | [(c & k & -> & Hc & Hp & Hf & Hle & E) | (c & w & -> & Hp & E)]].
  - rewrite Hcur, Enew, issued_app, Hnone, app_nil_r, Hw.
    split; [exact Hlo | exact Hcov].
  - cbv zeta in E. rewrite E. clear E.
    cbn [Threads.globals_of Threads.todo sent current_number].
    pose proof (Hpos c k Hc) as Hk.
    set (cur := current_number (Threads.globals_of t)) in *.
    set (last := Z.min (cur + BLOCK_SIZE_PER_CORE * k - 1) END_NUMBER).
    assert (Hlast : cur <= last) by (unfold last, BLOCK_SIZE_PER_CORE; lia).
    split; [lia |]. intros n.
    rewrite waiting_app, waiting_one, app_assoc, cover_app, Hcov.
    change (range_of (Work cur last)) with (cur, last).
    rewrite cover_cons. unfold Interval.inside, Interval.cover. cbn [fst snd List.filter List.length].
    destruct (Z.leb_spec START_NUMBER n), (Z.ltb_spec n cur), (Z.leb_spec cur n),
      (Z.leb_spec n last), (Z.ltb_spec n (last + 1)); simpl; try reflexivity; lia.
  - rewrite E. clear E.
    cbn [Threads.globals_of Threads.todo send_message sent current_number].
    destruct (drop_todo_some c (Threads.todo t) _ Hp) as (l1 & l2 & El & Ed).
    split; [exact Hlo |]. intros n.
    specialize (Hcov n). rewrite El in Hcov. rewrite Ed.
    rewrite issued_app, issued_one.
    change ((c, Threads.SendWork w) :: l2) with ([(c, Threads.SendWork w)] ++ l2) in Hcov.
    rewrite !waiting_app, waiting_one in Hcov.
    rewrite !cover_app in Hcov. rewrite waiting_app, !cover_app.
    change (range_of w) with (start w, end_ w) in Hcov. lia.
Qed.

Lemma lock_run_cover evs : forall t,
  Threads.cores_positive t -> Forall Threads.well_declared evs ->
  START_NUMBER <= current_number (Threads.globals_of t) ->
  (forall n, Interval.cover n (issued (sent (Threads.globals_of t))
                               ++ Threads.waiting (Threads.todo t))
             = if (START_NUMBER <=? n) && (n <? current_number (Threads.globals_of t))
               then 1%nat else 0%nat) ->
  forall n, Interval.cover n (issued (sent (Threads.globals_of (Threads.run t evs)))
                              ++ Threads.waiting (Threads.todo (Threads.run t evs)))
            = if (START_NUMBER <=? n)
                 && (n <? current_number (Threads.globals_of (Threads.run t evs)))
              then 1%nat else 0%nat.
Proof.
  induction evs as [| e evs IH]; intros t Hpos Hok Hlo Hcov; [exact Hcov |].
  inversion Hok as [| ? ? He Hevs]; subst.
  destruct (lock_step_cover t e Hpos Hlo Hcov) as [Hlo1 Hcov1].
  change (Threads.run t (e :: evs)) with (Threads.run (Threads.step t e) evs).
  apply IH; [apply lock_step_cores_positive; assumption | exact Hevs | exact Hlo1 | exact Hcov1].
Qed.

Lemma lock_step_announced t e :
  Threads.assignments_announced t -> Threads.assignments_announced (Threads.step t e).
Proof.
  intros Hinv.
  destruct (lock_step_effect t e)
    as [(_ & _ & Hsh & (new & Enew & _) & _ & Htodo)
       | [(c & k & -> & Hc & Hp & Hf & Hle & E) | (c & w & -> & Hp & E)]].
  - intros c w H. destruct (Hinv c w (Hsh c w H)) as [Hin | Ht].
    + left. rewrite Enew. apply in_or_app. left. exact Hin.
    + right. exact (Htodo c w Ht).
  - cbv zeta in E. rewrite E. clear E. intros c' w H.
    cbn [Threads.globals_of Threads.todo assigned_work sent] in *.
    rewrite todo_of_app.
    apply lookup_insert_Some in H as [[<- <-] | [Hne H]].
    + right. rewrite Hp, Nat.eqb_refl. reflexivity.
    + apply lookup_delete_Some in H as [_ H].
      destruct (Hinv c' w H) as [Hin | Ht]; [left; exact Hin |].
      right. rewrite Ht. reflexivity.
  - rewrite E. clear E. intros c' w' H.
    cbn [Threads.globals_of Threads.todo send_message assigned_work sent] in *.
    destruct (Hinv c' w' H) as [Hin | Ht].
    + left. apply in_or_app. left. exact Hin.
    + destruct (Nat.eq_dec c' c) as [-> | Hne].
      * left. apply in_or_app. right. left.
        rewrite Hp in Ht. injection Ht as ->. reflexivity.
      * right. rewrite drop_todo_other by exact Hne. exact Ht.
Qed.

Lemma lock_step_search_over t e :
  search_over (Threads.globals_of t) ->
  search_over (Threads.globals_of (Threads.step t e)) /\
  current_number (Threads.globals_of (Threads.step t e))
    = current_number (Threads.globals_of t) /\
  (forall c w, assigned_work (Threads.globals_of (Threads.step t e)) !! c = Some w ->
               assigned_work (Threads.globals_of t) !! c = Some w) /\
  exists new,
    sent (Threads.globals_of (Threads.step t e)) = sent (Threads.globals_of t) ++ new /\
    Permutation (issued new ++ Threads.waiting (Threads.todo (Threads.step t e)))
                (Threads.waiting (Threads.todo t)).
Proof.
  intros Hover.
  destruct (lock_step_effect t e)
    as [(Hcur & Hmono & Hsh & (new & Enew & Hnone) & Hw & _)
       | [(c & k & _ & _ & _ & Hf & Hle & _) | (c & w & -> & Hp & E)]].
  - split.
    { destruct Hover as [Hf | Hgt]; [left; exact (Hmono Hf) | right; rewrite Hcur; exact Hgt]. }
    split; [exact Hcur |]. split; [exact Hsh |].
    exists new. split; [exact Enew |]. rewrite Hnone, Hw. reflexivity.
  - destruct Hover as [Hf' | Hgt]; [congruence | lia].
  - rewrite E. clear E.
    cbn [Threads.globals_of Threads.todo send_message sent current_number
         assigned_work found].
    split; [exact Hover |]. split; [reflexivity |]. split; [intros c' w' H; exact H |].
    eexists. split; [reflexivity |].
    destruct (drop_todo_some c (Threads.todo t) _ Hp) as (l1 & l2 & El & Ed).
    rewrite Ed, El, issued_one.
    change ((c, Threads.SendWork w) :: l2) with ([(c, Threads.SendWork w)] ++ l2).
    rewrite !waiting_app, waiting_one.
    change (range_of w) with (start w, end_ w).
    cbn [app]. apply Permutation_middle.
Qed.

Lemma lock_run_search_over evs : forall t,
  search_over (Threads.globals_of t) ->
  search_over (Threads.globals_of (Threads.run t evs)) /\
  current_number (Threads.globals_of (Threads.run t evs))
    = current_number (Threads.globals_of t) /\
  (forall c w, assigned_work (Threads.globals_of (Threads.run t evs)) !! c = Some w ->
               assigned_work (Threads.globals_of t) !! c = Some w) /\
  exists new,
    sent (Threads.globals_of (Threads.run t evs)) = sent (Threads.globals_of t) ++ new /\
    Permutation (issued new ++ Threads.waiting (Threads.todo (Threads.run t evs)))
                (Threads.waiting (Threads.todo t)).
Proof.
  induction evs as [| e evs IH]; intros t Hover.
  - split; [exact Hover |]. split; [reflexivity |]. split; [intros c w H; exact H |].
    exists []. split; [symmetry; apply app_nil_r | reflexivity].
  - destruct (lock_step_search_over t e Hover)
      as (Hover1 & Hcur1 & Hsh1 & new1 & E1 & P1).
    destruct (IH (Threads.step t e) Hover1) as (Hover2 & Hcur2 & Hsh2 & new2 & E2 & P2).
    change (Threads.run t (e :: evs)) with (Threads.run (Threads.step t e) evs).
    split; [exact Hover2 |]. split; [congruence |].
    split; [intros c w H; apply Hsh1, Hsh2, H |].
    exists (new1 ++ new2). split; [rewrite E2, E1, app_assoc; reflexivity |].
    rewrite issued_app, <- app_assoc.
    etransitivity; [apply Permutation_app_head; exact P2 | exact P1].
Qed.

Lemma resume_idle c g h n :
  Threads.run (Threads.Threads g h []) (repeat (Threads.Resume c) n)
  = Threads.Threads g h [].
Proof. induction n as [| n IH]; [reflexivity | exact IH]. Qed.

Lemma run_cons t e evs :
  Threads.run t (e :: evs) = Threads.run (Threads.step t e) evs.
Proof. reflexivity. Qed.

Lemma lock_run_app t evs1 evs2 :
  Threads.run t (evs1 ++ evs2) = Threads.run (Threads.run t evs1) evs2.
Proof. unfold Threads.run. apply fold_left_app. Qed.

(** the loop of [notify_all_clients], run to its end without another
    handler in between *)
Lemma resume_notifying c h n cs : forall g,
  Threads.run (Threads.Threads g h [(c, Threads.Notifying cs)])
              (repeat (Threads.Resume c) (length cs + 1 + n))
  = Threads.Threads
      (Globals (current_number g) (found g) (found_number g) (clients g)
               (assigned_work g) (sent g ++ map (fun c' => (c', Stop)) cs))
      h [].
Proof.
  induction cs as [| c' cs IH]; intros g.
  - change (repeat (Threads.Resume c) (length (@nil conn) + 1 + n))
      with (Threads.Resume c :: repeat (Threads.Resume c) n).
    rewrite run_cons. cbn [Threads.step]. unfold Threads.resume.
    cbn [Threads.todo Threads.todo_of Threads.drop_todo Threads.globals_of Threads.cores_of].
    rewrite Nat.eqb_refl. rewrite resume_idle.
    cbn [map]. rewrite app_nil_r. destruct g; reflexivity.
  - change (repeat (Threads.Resume c) (length (c' :: cs) + 1 + n))
      with (Threads.Resume c :: repeat (Threads.Resume c) (length cs + 1 + n)).
    rewrite run_cons. cbn [Threads.step]. unfold Threads.resume.
    cbn [Threads.todo Threads.todo_of Threads.drop_todo Threads.globals_of Threads.cores_of].
    rewrite Nat.eqb_refl. cbn [app]. rewrite IH.
    cbn [send_message current_number found found_number clients assigned_work sent map].
    rewrite <- app_assoc. reflexivity.
Qed.

(** a step of [Server.step] is a run of lock blocks and sends *)
Lemma step_in_one_piece sys e :
  Threads.run (Threads.at_rest sys) (Threads.in_one_piece sys e)
  = Threads.at_rest (Server.step sys e).
Proof.
  destruct sys as [g h]. unfold Threads.at_rest.
  destruct e as [c | c m | c];
    cbn [Threads.in_one_piece Server.step shared handlers].
  - cbn. destruct (h !! c); reflexivity.
  - rewrite run_cons. cbn [Threads.step Threads.cores_of Threads.todo Threads.todo_of
                           Threads.lock_held existsb].
    destruct (h !! c) as [k |]; [| apply resume_idle].
    destruct m as [| | cores | | number |];
      cbn [Threads.dispatch Server.dispatch Threads.globals_of Threads.cores_of
           Threads.todo shared handlers].
    + apply resume_idle.
    + unfold Threads.finish, Server.finish. cbn. apply resume_idle.
    + cbn [register_client]. apply resume_idle.
    + rewrite assign_work_in_two.
      destruct (Threads.assign_work_locked c k g) as [g' [w |]]; cbn [fst app].
      * rewrite Nat.add_comm. cbn [Nat.add repeat]. rewrite run_cons.
        cbn [Threads.step]. unfold Threads.resume.
        cbn [Threads.todo Threads.todo_of Threads.drop_todo Threads.globals_of
             Threads.cores_of].
        rewrite Nat.eqb_refl. apply resume_idle.
      * apply resume_idle.
    + unfold handle_found.
      assert (Hcl : clients (fst (handle_found_locked c number g)) = clients g).
      { unfold handle_found_locked. cbn [pop_work found].
        destruct (found g); [reflexivity | destruct number; reflexivity]. }
      destruct (handle_found_locked c number g) as [g' raised]. cbn [fst] in Hcl.
      cbn [app]. rewrite Nat.add_comm. cbn [Nat.add repeat]. rewrite run_cons.
      cbn [Threads.step]. unfold Threads.resume.
      cbn [Threads.todo Threads.todo_of Threads.drop_todo Threads.globals_of
           Threads.cores_of].
      rewrite Nat.eqb_refl.
      destruct raised.
      * cbn [Threads.lock_held existsb snd orb]. unfold Threads.finish, Server.finish.
        cbn [Threads.todo Threads.todo_of Threads.drop_todo Threads.globals_of
             Threads.cores_of shared handlers].
        rewrite Nat.eqb_refl. apply resume_idle.
      * cbn [Threads.lock_held existsb snd orb app].
        rewrite <- Hcl.
        pose proof (resume_notifying c h 0 (map client_conn (clients g')) g') as R.
        rewrite length_map, Nat.add_0_r, Nat.add_comm in R. cbn [Nat.add repeat] in R.
        rewrite R. unfold notify_all_clients, stop_all.
        rewrite map_map. reflexivity.
    + apply resume_idle.
  - cbn. destruct (h !! c); reflexivity.
Qed.

Lemma run_in_one_piece evs : forall sys,
  Threads.run (Threads.at_rest sys) (Threads.all_in_one_piece sys evs)
  = Threads.at_rest (Server.run sys evs).
Proof.
  induction evs as [| e evs IH]; intros sys; [reflexivity |].
  cbn [Threads.all_in_one_piece]. rewrite lock_run_app, step_in_one_piece.
  apply IH.
Qed.

End LockBlocks.

(* ===================================================================== *)
(** ** The receive loops over bytes                                       *)
(* ===================================================================== *)

Section Bytes.
Import Wire.






End Bytes.



(* ===================================================================== *)
(** ** What holds of the handlers whatever way they take turns            *)
(* ===================================================================== *)

Section Turns.
Import Protocol Server.

Lemma cover_one n rs j r :
  rs !! j = Some r -> Interval.inside n r = true -> (1 <= Interval.cover n rs)%nat.
Proof.
  revert j. induction rs as [| r0 rs IH]; intros j Hj Hin; [destruct j; discriminate |].
  rewrite cover_cons. destruct j as [| j].
  - injection Hj as ->. rewrite Hin. lia.
  - specialize (IH j Hj Hin). lia.
Qed.

Lemma cover_two n rs i j ri rj :
  (i < j)%nat -> rs !! i = Some ri -> rs !! j = Some rj ->
  Interval.inside n ri = true -> Interval.inside n rj = true ->
  (2 <= Interval.cover n rs)%nat.
Proof.
  revert i j. induction rs as [| r0 rs IH]; intros i j Hij Hi Hj Ini Inj;
    [destruct i; discriminate |].
  rewrite cover_cons. destruct j as [| j]; [lia |].
  destruct i as [| i].
  - injection Hi as ->. rewrite Ini.
    pose proof (cover_one n rs j rj Hj Inj). lia.
  - assert (Hlt : (i < j)%nat) by lia.
    specialize (IH i j Hlt Hi Hj Ini Inj). lia.
Qed.

Lemma lock_run_announced evs : forall t,
  Threads.assignments_announced t ->
  Threads.assignments_announced (Threads.run t evs).
Proof.
  induction evs as [| e evs IH]; intros t H; [exact H |].
  rewrite run_cons. apply IH, lock_step_announced, H.
Qed.

End Turns.

(** two handlers carve a block each and the second sends its block
    first: the [work] messages leave in another order than the blocks
    were carved *)
Example work_messages_out_of_order :
  let t := Threads.run Threads.startup
             [Threads.Accept 1%nat; Threads.Accept 2%nat;
              Threads.Line 1%nat Protocol.RequestWork;
              Threads.Line 2%nat Protocol.RequestWork;
              Threads.Resume 2%nat; Threads.Resume 1%nat] in
  Server.issued (Server.sent (Threads.globals_of t))
    = [(200000, 399999); (0, 199999)] /\
  Threads.todo t = [].
Proof. vm_compute. split; reflexivity. Qed.

(** a [stop] of the broadcast overtakes the [work] message of a block
    carved before the number was reported *)
Example stop_overtakes_work :
  let t := Threads.run Threads.startup
             [Threads.Accept 1%nat; Threads.Accept 2%nat;
              Threads.Line 1%nat (Protocol.Register (Some 1));
              Threads.Line 2%nat (Protocol.Register (Some 1));
              Threads.Line 1%nat Protocol.RequestWork;
              Threads.Line 2%nat (Protocol.FoundMsg (Some (Protocol.PyStr "0000000007")));
              Threads.Resume 2%nat; Threads.Resume 2%nat;
              Threads.Resume 1%nat;
              Threads.Resume 2%nat; Threads.Resume 2%nat] in
  Server.sent (Threads.globals_of t)
    = [(1%nat, Protocol.Stop);
       (1%nat, Protocol.WorkMsg 0 199999 Server.TARGET_HASH);
       (2%nat, Protocol.Stop)] /\
  Threads.todo t = [].
Proof. vm_compute. split; reflexivity. Qed.

(** X1: whatever the traffic and whatever way the handlers take turns
    between their lock blocks, as long as every [register] line declares
    at least one core: every number from [START_NUMBER] up to the cursor
    is in exactly one block, which has been given to [send_message] in a
    [work] message or is about to be, and no other number is in any.  So
    no number is in two [work] messages, no two [work] messages share a
    number, none holds a number at or beyond the cursor, and once no
    handler has a block left to send the [work] messages hold every
    number below the cursor exactly once.  The messages need not leave in
    the order of their blocks. *)
Theorem each_number_in_one_work_message (evs : list Threads.event) :
  Forall Threads.well_declared evs ->
  let t := Threads.run Threads.startup evs in
  let g := Threads.globals_of t in
  (forall n, Interval.cover n (Server.issued (Server.sent g)
                               ++ Threads.waiting (Threads.todo t))
             = if (Server.START_NUMBER <=? n) && (n <? Server.current_number g)
               then 1%nat else 0%nat) /\
  (forall n, (Interval.cover n (Server.issued (Server.sent g)) <= 1)%nat) /\
  (forall i j ri rj n,
     i <> j ->
     Server.issued (Server.sent g) !! i = Some ri ->
     Server.issued (Server.sent g) !! j = Some rj ->
     Interval.inside n ri = true -> Interval.inside n rj = false) /\
  (forall n, n < Server.START_NUMBER \/ Server.current_number g <= n ->
             Interval.cover n (Server.issued (Server.sent g)) = 0%nat) /\
  (Threads.waiting (Threads.todo t) = [] ->
   forall n, Interval.cover n (Server.issued (Server.sent g))
             = if (Server.START_NUMBER <=? n) && (n <? Server.current_number g)
               then 1%nat else 0%nat).
Proof.
  intros Hok t g.
  assert (Hcov : forall n,
            Interval.cover n (Server.issued (Server.sent g)
                              ++ Threads.waiting (Threads.todo t))
            = if (Server.START_NUMBER <=? n) && (n <? Server.current_number g)
              then 1%nat else 0%nat).
  { apply lock_run_cover.
    - exact lock_startup_cores_positive.
    - exact Hok.
    - reflexivity.
    - intros n. change (Interval.cover n []) with 0%nat.
      change (Server.current_number (Threads.globals_of Threads.startup))
        with Server.START_NUMBER.
      destruct (Z.leb_spec Server.START_NUMBER n), (Z.ltb_spec n Server.START_NUMBER);
        try reflexivity; lia. }
  assert (Hone : forall n, (Interval.cover n (Server.issued (Server.sent g)) <= 1)%nat).
  { intros n. specialize (Hcov n). rewrite cover_app in Hcov.
    destruct ((Server.START_NUMBER <=? n) && (n <? Server.current_number g)); lia. }
  split; [exact Hcov |]. split; [exact Hone |]. split; [| split].
  - intros i j ri rj n Hij Hi Hj Ini.
    destruct (Interval.inside n rj) eqn:Inj; [exfalso | reflexivity].
    specialize (Hone n).
    destruct (Nat.lt_total i j) as [Hlt | [Heq | Hgt]]; [| contradiction |].
    + pose proof (cover_two n _ i j ri rj Hlt Hi Hj Ini Inj). lia.
    + pose proof (cover_two n _ j i rj ri Hgt Hj Hi Inj Ini). lia.
  - intros n Hn. specialize (Hcov n). rewrite cover_app in Hcov.
    destruct (Z.leb_spec Server.START_NUMBER n), (Z.ltb_spec n (Server.current_number g));
      cbn [andb] in Hcov; lia.
  - intros Hw n. specialize (Hcov n). rewrite Hw, app_nil_r in Hcov. exact Hcov.
Qed.

Lemma each_number_in_one_work_message_witness :
  let evs := [Threads.Accept 1%nat; Threads.Accept 2%nat;
              Threads.Line 1%nat (Protocol.Register (Some 2));
              Threads.Line 1%nat Protocol.RequestWork;
              Threads.Line 2%nat Protocol.RequestWork;
              Threads.Resume 2%nat] in
  let t := Threads.run Threads.startup evs in
  Forall Threads.well_declared evs /\
  Server.issued (Server.sent (Threads.globals_of t)) = [(400000, 599999)] /\
  Threads.waiting (Threads.todo t) = [(0, 399999)] /\
  Interval.cover 123456
    (Server.issued (Server.sent (Threads.globals_of t))
     ++ Threads.waiting (Threads.todo t)) = 1%nat /\
  Interval.cover 600000 (Server.issued (Server.sent (Threads.globals_of t))) = 0%nat.
Proof.
  cbv zeta.
  assert (Hok : Forall Threads.well_declared
                  [Threads.Accept 1%nat; Threads.Accept 2%nat;
                   Threads.Line 1%nat (Protocol.Register (Some 2));
                   Threads.Line 1%nat Protocol.RequestWork;
                   Threads.Line 2%nat Protocol.RequestWork;
                   Threads.Resume 2%nat])
    by (repeat constructor; cbn; lia).
  split; [exact Hok |].
  split; [vm_compute; reflexivity |]. split; [vm_compute; reflexivity |].
  destruct (each_number_in_one_work_message _ Hok) as (Hcov & _ & _ & Hout & _).
  split; [exact (Hcov 123456) |].
  apply Hout. right. vm_compute. discriminate.
Defined.

(** X3: a block stays in [assigned_work] only with its [work] message
    under way: after any traffic, whatever way the handlers take turns,
    every block of [assigned_work] has been given to [send_message] for
    its connection, with the bounds recorded and the coordinator's
    target, or is the block that the handler of that connection is about
    to give to it.  ([send_message] swallows what [sendall] raises, so
    this is about the calls made, not about what reached the client; the
    block is recorded before the call.) *)
Theorem recorded_blocks_are_announced (evs : list Threads.event) :
  Threads.assignments_announced (Threads.run Threads.startup evs) /\
  (let t := Threads.run Threads.startup
              [Threads.Accept 1%nat; Threads.Line 1%nat Protocol.RequestWork] in
   Server.assigned_work (Threads.globals_of t) !! 1%nat = Some (Server.Work 0 199999) /\
   Server.sent (Threads.globals_of t) = [] /\
   Threads.todo_of 1%nat (Threads.todo t)
     = Some (Threads.SendWork (Server.Work 0 199999))).
Proof.
  split.
  - apply lock_run_announced. intros c w H.
    cbn in H. rewrite lookup_empty in H. discriminate.
  - vm_compute. repeat split; reflexivity.
Qed.

(** X5: once a number has been reported, or once the cursor is beyond
    [END_NUMBER], no traffic makes the coordinator carve anything,
    whatever way the handlers take turns and whatever core counts are
    registered: the cursor stays, no block is added to [assigned_work],
    and the only [work] messages still given to [send_message] are those
    of blocks carved before, each at most once; when no handler had such
    a block left to send, no [work] message is sent at all. *)
Theorem nothing_carved_once_over (t : Threads.threads) (evs : list Threads.event) :
  Server.search_over (Threads.globals_of t) ->
  let t' := Threads.run t evs in
  Server.search_over (Threads.globals_of t') /\
  Server.current_number (Threads.globals_of t')
    = Server.current_number (Threads.globals_of t) /\
  (forall c w,
     Server.assigned_work (Threads.globals_of t') !! c = Some w ->
     Server.assigned_work (Threads.globals_of t) !! c = Some w) /\
  exists new,
    Server.sent (Threads.globals_of t') = Server.sent (Threads.globals_of t) ++ new /\
    Permutation (Server.issued new ++ Threads.waiting (Threads.todo t'))
                (Threads.waiting (Threads.todo t)) /\
    (Threads.waiting (Threads.todo t) = [] -> Server.issued new = []).
Proof.
  intros Hover t'.
  destruct (lock_run_search_over evs t Hover) as (H1 & H2 & H3 & new & E & P).
  split; [exact H1 |]. split; [exact H2 |]. split; [exact H3 |].
  exists new. split; [exact E |]. split; [exact P |].
  intros Hw. rewrite Hw in P. apply Permutation_nil_r in P.
  destruct (Server.issued new); [reflexivity | discriminate].
Qed.

Lemma nothing_carved_once_over_witness :
  let t := Threads.run Threads.startup
             [Threads.Accept 1%nat; Threads.Accept 2%nat;
              Threads.Line 1%nat Protocol.RequestWork;
              Threads.Line 2%nat
                (Protocol.FoundMsg (Some (Protocol.PyStr "0000000007")))] in
  let evs := [Threads.Resume 2%nat; Threads.Resume 1%nat;
              Threads.Line 1%nat Protocol.RequestWork; Threads.Resume 2%nat] in
  Server.search_over (Threads.globals_of t) /\
  Threads.waiting (Threads.todo t) = [(0, 199999)] /\
  Server.current_number (Threads.globals_of (Threads.run t evs)) = 200000 /\
  Server.issued (Server.sent (Threads.globals_of (Threads.run t evs))) = [(0, 199999)].
Proof.
  cbv zeta.
  assert (Hover : Server.search_over (Threads.globals_of
            (Threads.run Threads.startup
               [Threads.Accept 1%nat; Threads.Accept 2%nat;
                Threads.Line 1%nat Protocol.RequestWork;
                Threads.Line 2%nat
                  (Protocol.FoundMsg (Some (Protocol.PyStr "0000000007")))])))
    by (left; vm_compute; reflexivity).
  split; [exact Hover |]. split; [vm_compute; reflexivity |].
  split; [| vm_compute; reflexivity].
  rewrite (proj1 (proj2 (nothing_carved_once_over _
             [Threads.Resume 2%nat; Threads.Resume 1%nat;
              Threads.Line 1%nat Protocol.RequestWork; Threads.Resume 2%nat] Hover))).
  vm_compute. reflexivity.
Defined.

(** X18: the handling of a line in one piece is one of the ways the
    handlers can take turns.  Every run of [Server.step] is a run of lock
    blocks and sends in which each handler, after its lock block, does
    all it has still to do (the send of the [work] message, the loop of
    [notify_all_clients], [cleanup_client]) before another handler moves:
    it ends with the same globals, the same messages in the same order,
    the same handlers running and none with anything left to do. *)
Theorem one_piece_is_one_of_the_turns (sys : Server.system) (evs : list Server.event) :
  Threads.run (Threads.at_rest sys) (Threads.all_in_one_piece sys evs)
  = Threads.at_rest (Server.run sys evs).
Proof. apply run_in_one_piece. Qed.
